(** * DermaSim: the acne simulation engine of [simulation.js]

    A shallow embedding of class [AcneSimulation] and of the places of
    [main.js] that drive it, followed by the properties of the engine.

    Numbers.  A JavaScript number is modelled as an exact rational [Q]:
    [Math.min], [Math.max] and the comparisons are exact on doubles, and the
    arithmetic is taken without rounding.  Decimal literals of the source
    ([0.05], [0.99], ...) are the rationals they denote.  Every number is
    finite: [NaN] and the infinities are outside the model, so a method that
    takes a number is embedded for arguments other than [NaN].

    Objects.  The engine object is the record [AcneSimulation], one field per
    property assigned by the constructor or by a method.  The seven threshold
    properties are assigned once by the constructor and never written again,
    so they are constants here.  A method that mutates [this] is a function on
    the record; a method that also writes to the console or can throw works on
    a [World] (engine object and console) and returns a [Completion]. *)

From Stdlib Require Import QArith Qminmax Qround Qpower Lqa ZArith String List
  Bool Lia.
Import ListNotations.

Local Open Scope string_scope.
Local Open Scope Q_scope.

(** ** Numbers *)

(** [a > b], [a < b] and [a >= b] on JavaScript numbers. *)
Definition Qgtb (a b : Q) : bool := negb (Qle_bool a b).
Definition Qltb (a b : Q) : bool := negb (Qle_bool b a).
Definition Qgeb (a b : Q) : bool := Qle_bool b a.

(** [x !== this.lastLogTime], where the property is [undefined] until the
    first periodic log. *)
Definition strict_neq_opt (x : Z) (o : option Z) : bool :=
  match o with
  | Some y => negb (Z.eqb x y)
  | None => true
  end.

(** ** The engine object *)

Record AcneSimulation : Type := mkAcneSimulation {
  simulationTime : Q;
  timeScale : Q;
  simulationStage : string;
  sebumValue : Q;
  bacteriaValue : Q;
  medicationValue : Q;
  inflammationValue : Q;
  healingValue : Q;
  temperatureValue : Q;
  humidityValue : Q;
  frictionValue : Q;
  sebumRate : Q;
  bacteriaGrowthRate : Q;
  currentSebumLevel : Q;
  currentBacteriaLevel : Q;
  currentInflammationLevel : Q;
  currentNeutrophilLevel : Q;
  currentPusLevel : Q;
  currentMedicationLevel : Q;
  progressionAccelerator : Q;
  healingProgress : Q;
  baselineInflammation : option Q;
  humidityEffect : option Q;
  lastLogTime : option Z
}.

Definition set_simulationTime (v : Q) (s : AcneSimulation) : AcneSimulation :=
  mkAcneSimulation v (timeScale s) (simulationStage s) (sebumValue s)
    (bacteriaValue s) (medicationValue s) (inflammationValue s)
    (healingValue s) (temperatureValue s) (humidityValue s) (frictionValue s)
    (sebumRate s) (bacteriaGrowthRate s) (currentSebumLevel s)
    (currentBacteriaLevel s) (currentInflammationLevel s)
    (currentNeutrophilLevel s) (currentPusLevel s) (currentMedicationLevel s)
    (progressionAccelerator s) (healingProgress s) (baselineInflammation s)
    (humidityEffect s) (lastLogTime s).

Definition set_simulationStage (v : string) (s : AcneSimulation) : AcneSimulation :=
  mkAcneSimulation (simulationTime s) (timeScale s) v (sebumValue s)
    (bacteriaValue s) (medicationValue s) (inflammationValue s)
    (healingValue s) (temperatureValue s) (humidityValue s) (frictionValue s)
    (sebumRate s) (bacteriaGrowthRate s) (currentSebumLevel s)
    (currentBacteriaLevel s) (currentInflammationLevel s)
    (currentNeutrophilLevel s) (currentPusLevel s) (currentMedicationLevel s)
    (progressionAccelerator s) (healingProgress s) (baselineInflammation s)
    (humidityEffect s) (lastLogTime s).

Definition set_medicationValue (v : Q) (s : AcneSimulation) : AcneSimulation :=
  mkAcneSimulation (simulationTime s) (timeScale s) (simulationStage s)
    (sebumValue s) (bacteriaValue s) v (inflammationValue s) (healingValue s)
    (temperatureValue s) (humidityValue s) (frictionValue s) (sebumRate s)
    (bacteriaGrowthRate s) (currentSebumLevel s) (currentBacteriaLevel s)
    (currentInflammationLevel s) (currentNeutrophilLevel s)
    (currentPusLevel s) (currentMedicationLevel s) (progressionAccelerator s)
    (healingProgress s) (baselineInflammation s) (humidityEffect s)
    (lastLogTime s).

Definition set_humidityValue (v : Q) (s : AcneSimulation) : AcneSimulation :=
  mkAcneSimulation (simulationTime s) (timeScale s) (simulationStage s)
    (sebumValue s) (bacteriaValue s) (medicationValue s) (inflammationValue s)
    (healingValue s) (temperatureValue s) v (frictionValue s) (sebumRate s)
    (bacteriaGrowthRate s) (currentSebumLevel s) (currentBacteriaLevel s)
    (currentInflammationLevel s) (currentNeutrophilLevel s)
    (currentPusLevel s) (currentMedicationLevel s) (progressionAccelerator s)
    (healingProgress s) (baselineInflammation s) (humidityEffect s)
    (lastLogTime s).

Definition set_frictionValue (v : Q) (s : AcneSimulation) : AcneSimulation :=
  mkAcneSimulation (simulationTime s) (timeScale s) (simulationStage s)
    (sebumValue s) (bacteriaValue s) (medicationValue s) (inflammationValue s)
    (healingValue s) (temperatureValue s) (humidityValue s) v (sebumRate s)
    (bacteriaGrowthRate s) (currentSebumLevel s) (currentBacteriaLevel s)
    (currentInflammationLevel s) (currentNeutrophilLevel s)
    (currentPusLevel s) (currentMedicationLevel s) (progressionAccelerator s)
    (healingProgress s) (baselineInflammation s) (humidityEffect s)
    (lastLogTime s).

Definition set_sebumRate (v : Q) (s : AcneSimulation) : AcneSimulation :=
  mkAcneSimulation (simulationTime s) (timeScale s) (simulationStage s)
    (sebumValue s) (bacteriaValue s) (medicationValue s) (inflammationValue s)
    (healingValue s) (temperatureValue s) (humidityValue s) (frictionValue s)
    v (bacteriaGrowthRate s) (currentSebumLevel s) (currentBacteriaLevel s)
    (currentInflammationLevel s) (currentNeutrophilLevel s)
    (currentPusLevel s) (currentMedicationLevel s) (progressionAccelerator s)
    (healingProgress s) (baselineInflammation s) (humidityEffect s)
    (lastLogTime s).

Definition set_bacteriaGrowthRate (v : Q) (s : AcneSimulation) : AcneSimulation :=
  mkAcneSimulation (simulationTime s) (timeScale s) (simulationStage s)
    (sebumValue s) (bacteriaValue s) (medicationValue s) (inflammationValue s)
    (healingValue s) (temperatureValue s) (humidityValue s) (frictionValue s)
    (sebumRate s) v (currentSebumLevel s) (currentBacteriaLevel s)
    (currentInflammationLevel s) (currentNeutrophilLevel s)
    (currentPusLevel s) (currentMedicationLevel s) (progressionAccelerator s)
    (healingProgress s) (baselineInflammation s) (humidityEffect s)
    (lastLogTime s).

Definition set_currentSebumLevel (v : Q) (s : AcneSimulation) : AcneSimulation :=
  mkAcneSimulation (simulationTime s) (timeScale s) (simulationStage s)
    (sebumValue s) (bacteriaValue s) (medicationValue s) (inflammationValue s)
    (healingValue s) (temperatureValue s) (humidityValue s) (frictionValue s)
    (sebumRate s) (bacteriaGrowthRate s) v (currentBacteriaLevel s)
    (currentInflammationLevel s) (currentNeutrophilLevel s)
    (currentPusLevel s) (currentMedicationLevel s) (progressionAccelerator s)
    (healingProgress s) (baselineInflammation s) (humidityEffect s)
    (lastLogTime s).

Definition set_currentBacteriaLevel (v : Q) (s : AcneSimulation) : AcneSimulation :=
  mkAcneSimulation (simulationTime s) (timeScale s) (simulationStage s)
    (sebumValue s) (bacteriaValue s) (medicationValue s) (inflammationValue s)
    (healingValue s) (temperatureValue s) (humidityValue s) (frictionValue s)
    (sebumRate s) (bacteriaGrowthRate s) (currentSebumLevel s) v
    (currentInflammationLevel s) (currentNeutrophilLevel s)
    (currentPusLevel s) (currentMedicationLevel s) (progressionAccelerator s)
    (healingProgress s) (baselineInflammation s) (humidityEffect s)
    (lastLogTime s).

Definition set_currentInflammationLevel (v : Q) (s : AcneSimulation) : AcneSimulation :=
  mkAcneSimulation (simulationTime s) (timeScale s) (simulationStage s)
    (sebumValue s) (bacteriaValue s) (medicationValue s) (inflammationValue s)
    (healingValue s) (temperatureValue s) (humidityValue s) (frictionValue s)
    (sebumRate s) (bacteriaGrowthRate s) (currentSebumLevel s)
    (currentBacteriaLevel s) v (currentNeutrophilLevel s) (currentPusLevel s)
    (currentMedicationLevel s) (progressionAccelerator s) (healingProgress s)
    (baselineInflammation s) (humidityEffect s) (lastLogTime s).

Definition set_currentNeutrophilLevel (v : Q) (s : AcneSimulation) : AcneSimulation :=
  mkAcneSimulation (simulationTime s) (timeScale s) (simulationStage s)
    (sebumValue s) (bacteriaValue s) (medicationValue s) (inflammationValue s)
    (healingValue s) (temperatureValue s) (humidityValue s) (frictionValue s)
    (sebumRate s) (bacteriaGrowthRate s) (currentSebumLevel s)
    (currentBacteriaLevel s) (currentInflammationLevel s) v
    (currentPusLevel s) (currentMedicationLevel s) (progressionAccelerator s)
    (healingProgress s) (baselineInflammation s) (humidityEffect s)
    (lastLogTime s).

Definition set_currentPusLevel (v : Q) (s : AcneSimulation) : AcneSimulation :=
  mkAcneSimulation (simulationTime s) (timeScale s) (simulationStage s)
    (sebumValue s) (bacteriaValue s) (medicationValue s) (inflammationValue s)
    (healingValue s) (temperatureValue s) (humidityValue s) (frictionValue s)
    (sebumRate s) (bacteriaGrowthRate s) (currentSebumLevel s)
    (currentBacteriaLevel s) (currentInflammationLevel s)
    (currentNeutrophilLevel s) v (currentMedicationLevel s)
    (progressionAccelerator s) (healingProgress s) (baselineInflammation s)
    (humidityEffect s) (lastLogTime s).

Definition set_currentMedicationLevel (v : Q) (s : AcneSimulation) : AcneSimulation :=
  mkAcneSimulation (simulationTime s) (timeScale s) (simulationStage s)
    (sebumValue s) (bacteriaValue s) (medicationValue s) (inflammationValue s)
    (healingValue s) (temperatureValue s) (humidityValue s) (frictionValue s)
    (sebumRate s) (bacteriaGrowthRate s) (currentSebumLevel s)
    (currentBacteriaLevel s) (currentInflammationLevel s)
    (currentNeutrophilLevel s) (currentPusLevel s) v
    (progressionAccelerator s) (healingProgress s) (baselineInflammation s)
    (humidityEffect s) (lastLogTime s).

Definition set_progressionAccelerator (v : Q) (s : AcneSimulation) : AcneSimulation :=
  mkAcneSimulation (simulationTime s) (timeScale s) (simulationStage s)
    (sebumValue s) (bacteriaValue s) (medicationValue s) (inflammationValue s)
    (healingValue s) (temperatureValue s) (humidityValue s) (frictionValue s)
    (sebumRate s) (bacteriaGrowthRate s) (currentSebumLevel s)
    (currentBacteriaLevel s) (currentInflammationLevel s)
    (currentNeutrophilLevel s) (currentPusLevel s) (currentMedicationLevel s)
    v (healingProgress s) (baselineInflammation s) (humidityEffect s)
    (lastLogTime s).

Definition set_healingProgress (v : Q) (s : AcneSimulation) : AcneSimulation :=
  mkAcneSimulation (simulationTime s) (timeScale s) (simulationStage s)
    (sebumValue s) (bacteriaValue s) (medicationValue s) (inflammationValue s)
    (healingValue s) (temperatureValue s) (humidityValue s) (frictionValue s)
    (sebumRate s) (bacteriaGrowthRate s) (currentSebumLevel s)
    (currentBacteriaLevel s) (currentInflammationLevel s)
    (currentNeutrophilLevel s) (currentPusLevel s) (currentMedicationLevel s)
    (progressionAccelerator s) v (baselineInflammation s) (humidityEffect s)
    (lastLogTime s).

Definition set_baselineInflammation (v : option Q) (s : AcneSimulation) : AcneSimulation :=
  mkAcneSimulation (simulationTime s) (timeScale s) (simulationStage s)
    (sebumValue s) (bacteriaValue s) (medicationValue s) (inflammationValue s)
    (healingValue s) (temperatureValue s) (humidityValue s) (frictionValue s)
    (sebumRate s) (bacteriaGrowthRate s) (currentSebumLevel s)
    (currentBacteriaLevel s) (currentInflammationLevel s)
    (currentNeutrophilLevel s) (currentPusLevel s) (currentMedicationLevel s)
    (progressionAccelerator s) (healingProgress s) v (humidityEffect s)
    (lastLogTime s).

Definition set_humidityEffect (v : option Q) (s : AcneSimulation) : AcneSimulation :=
  mkAcneSimulation (simulationTime s) (timeScale s) (simulationStage s)
    (sebumValue s) (bacteriaValue s) (medicationValue s) (inflammationValue s)
    (healingValue s) (temperatureValue s) (humidityValue s) (frictionValue s)
    (sebumRate s) (bacteriaGrowthRate s) (currentSebumLevel s)
    (currentBacteriaLevel s) (currentInflammationLevel s)
    (currentNeutrophilLevel s) (currentPusLevel s) (currentMedicationLevel s)
    (progressionAccelerator s) (healingProgress s) (baselineInflammation s) v
    (lastLogTime s).

Definition set_lastLogTime (v : option Z) (s : AcneSimulation) : AcneSimulation :=
  mkAcneSimulation (simulationTime s) (timeScale s) (simulationStage s)
    (sebumValue s) (bacteriaValue s) (medicationValue s) (inflammationValue s)
    (healingValue s) (temperatureValue s) (humidityValue s) (frictionValue s)
    (sebumRate s) (bacteriaGrowthRate s) (currentSebumLevel s)
    (currentBacteriaLevel s) (currentInflammationLevel s)
    (currentNeutrophilLevel s) (currentPusLevel s) (currentMedicationLevel s)
    (progressionAccelerator s) (healingProgress s) (baselineInflammation s)
    (humidityEffect s) v.
(** Thresholds for stage transitions (constructor, lines 31-38). *)
Definition SEBUM_THRESHOLD : Q := 70.
Definition BACTERIA_THRESHOLD : Q := 60.
Definition INFLAMMATION_THRESHOLD : Q := 40.
Definition PUS_THRESHOLD : Q := 70.
Definition RUPTURE_THRESHOLD : Q := 90.
Definition HEALING_THRESHOLD : Q := 30.
Definition RESOLVED_THRESHOLD : Q := 80.

(** [new AcneSimulation()]: the state the constructor leaves.
    [baselineInflammation], [humidityEffect] and [lastLogTime] are not
    assigned by the constructor and start [undefined]. *)
Definition new_AcneSimulation : AcneSimulation :=
  {| simulationTime := 0;
     timeScale := 1;
     simulationStage := "incubation";
     sebumValue := 500;
     bacteriaValue := 200;
     medicationValue := 0;
     inflammationValue := 500;
     healingValue := 500;
     temperatureValue := 500;
     humidityValue := 500;
     frictionValue := 0;
     sebumRate := 0.05;
     bacteriaGrowthRate := 0.05;
     currentSebumLevel := 20;
     currentBacteriaLevel := 0;
     currentInflammationLevel := 0;
     currentNeutrophilLevel := 0;
     currentPusLevel := 0;
     currentMedicationLevel := 0;
     progressionAccelerator := 1.0;
     healingProgress := 0;
     baselineInflammation := None;
     humidityEffect := None;
     lastLogTime := None |}.

(** ** Console, exceptions and method calls *)

(** What the engine prints.  The periodic state line and the accelerator line
    format numbers with [toFixed(1)]; they are kept as the numbers printed. *)
Inductive ConsoleEntry : Type :=
| console_log (msg : string)
| console_error (msg : string)
| console_log_state (hours : Z) (stage : string)
    (sebum bacteria inflammation neutrophils pus : Q)
| console_log_accelerator (x : Q).

Record World : Type := mkWorld {
  sim : AcneSimulation;
  console : list ConsoleEntry
}.

Definition on_sim (f : AcneSimulation -> AcneSimulation) (w : World) : World :=
  {| sim := f (sim w); console := console w |}.

Definition log (e : ConsoleEntry) (w : World) : World :=
  {| sim := sim w; console := console w ++ [e] |}.

Inductive JsError : Type :=
| TypeError (msg : string).

(** How a call ends: normally, or with an exception that propagates to the
    caller.  An exception does not undo the writes made before it. *)
Inductive Completion : Type :=
| Normal
| Abrupt (e : JsError).

Definition Method : Type := World -> Completion * World.

Definition andThen (m k : Method) : Method :=
  fun w =>
    match m w with
    | (Normal, w') => k w'
    | (Abrupt e, w') => (Abrupt e, w')
    end.

Notation "m ;; k" := (andThen m k) (at level 61, right associativity).

Definition pure (f : World -> World) : Method := fun w => (Normal, f w).

(** The methods class [AcneSimulation] declares, in source order.  No code of
    the repository adds a function-valued property to an instance.  The
    class's own [skipToNextStage] has no caller (the button of [main.js] goes
    through [advanceToNextStage]); it is embedded after the driver. *)
Definition AcneSimulation_methods : list string :=
  [ "updateDerivedRates"; "updateBiologicalState"; "checkStageTransitions";
    "setProgressionAccelerator"; "advanceToNextStage"; "update"; "setStage";
    "resetStageProgress"; "updateProgressBar"; "skipToNextStage";
    "updateParameters"; "updateVisualization"; "updateUI";
    "updateParameterDisplays" ].

Definition has_method (m : string) : bool :=
  existsb (String.eqb m) AcneSimulation_methods.

(** The call [receiver.m(...)] on the engine object: when the class declares
    [m] the call runs [body], the embedding of [m]; otherwise the callee is
    [undefined] and the call throws a TypeError. *)
Definition invoke (receiver m : string) (body : Method) : Method :=
  fun w =>
    if has_method m then body w
    else (Abrupt (TypeError (receiver ++ "." ++ m ++ " is not a function")), w).

(** Stands where a call names a method for which the class has no body. *)
Definition no_body : Method := pure (fun w => w).

(** ** Methods of class [AcneSimulation] *)

(** [updateDerivedRates()] (lines 48-70). *)
Definition updateDerivedRates (s : AcneSimulation) : AcneSimulation :=
  let s := set_sebumRate
    (0.05 * (1 + 0.002 * (temperatureValue s - 500)) * progressionAccelerator s) s in
  let s := set_bacteriaGrowthRate
    (0.05 * (1 + 0.001 * (temperatureValue s - 500)) *
     (1 - medicationValue s / 2000) * progressionAccelerator s) s in
  let s := set_baselineInflammation (Some 0) s in
  let s := if Qgtb (frictionValue s) 300
           then set_baselineInflammation (Some ((frictionValue s - 300) / 1400)) s
           else s in
  let s := set_humidityEffect (Some 1) s in
  let s := if Qgtb (humidityValue s) 600
           then set_humidityEffect (Some (1 + (humidityValue s - 600) / 800)) s
           else s in
  set_currentMedicationLevel
    (currentMedicationLevel s * 0.99 + medicationValue s * 0.01) s.

(** [updateBiologicalState(dt)] (lines 73-135), one definition per commented
    block of the method, in source order. *)

(** Lines 74-76: update sebum level. *)
Definition update_sebum (dt : Q) (s : AcneSimulation) : AcneSimulation :=
  let scaledSebumRate := sebumRate s * (sebumValue s / 500) * dt in
  set_currentSebumLevel (Qmin 100 (currentSebumLevel s + scaledSebumRate)) s.

(** Lines 78-90: if comedone formed, update bacteria. *)
Definition update_bacteria (dt : Q) (s : AcneSimulation) : AcneSimulation :=
  if negb (simulationStage s =? "incubation")%string then
    let baseBacteriaGrowth :=
      if Qgtb (currentBacteriaLevel s) 0
      then currentBacteriaLevel s * bacteriaGrowthRate s * dt
      else bacteriaValue s / 100 * dt * 2.0 in
    let s := set_currentBacteriaLevel
               (Qmin 100 (currentBacteriaLevel s + baseBacteriaGrowth)) s in
    if Qgtb (medicationValue s) 0
    then set_currentBacteriaLevel
           (Qmax 0 (currentBacteriaLevel s - (medicationValue s / 10000) * dt)) s
    else s
  else s.

(** Lines 92-104: update inflammation based on bacteria and sensitivity. *)
Definition update_inflammation (dt : Q) (s : AcneSimulation) : AcneSimulation :=
  if Qgtb (currentBacteriaLevel s) BACTERIA_THRESHOLD
     || ((simulationStage s =? "comedone")%string
         || (simulationStage s =? "papule")%string)
  then
    let inflammationRate :=
      ((Qmax (currentBacteriaLevel s) 30 - 30) / 40) *
      (inflammationValue s / 500) * dt * progressionAccelerator s in
    let s := set_currentInflammationLevel
               (Qmin 100 (currentInflammationLevel s + inflammationRate)) s in
    if Qgtb (currentInflammationLevel s) (INFLAMMATION_THRESHOLD / 2)
    then set_currentNeutrophilLevel
           (Qmin 100 (currentNeutrophilLevel s + inflammationRate * 2.0)) s
    else s
  else s.

(** Lines 106-110: update pus level based on neutrophils. *)
Definition update_pus (dt : Q) (s : AcneSimulation) : AcneSimulation :=
  if Qgtb (currentNeutrophilLevel s) 10
     && ((simulationStage s =? "papule")%string
         || (simulationStage s =? "pustule")%string)
  then set_currentPusLevel
         (Qmin 100 (currentPusLevel s +
                    (currentNeutrophilLevel s / 80) * dt * progressionAccelerator s)) s
  else s.

(** Lines 112-128: handle healing phase. *)
Definition update_healing (dt : Q) (s : AcneSimulation) : AcneSimulation :=
  if (simulationStage s =? "healing")%string
     || (simulationStage s =? "resolved")%string
  then
    let healingRate := (healingValue s / 500) * dt in
    let s := set_currentInflammationLevel
               (Qmax 0 (currentInflammationLevel s - healingRate)) s in
    let s := set_currentNeutrophilLevel
               (Qmax 0 (currentNeutrophilLevel s - healingRate * 1.2)) s in
    let s := set_currentPusLevel
               (Qmax 0 (currentPusLevel s - healingRate * 0.8)) s in
    let s := if (simulationStage s =? "healing")%string
                && Qltb (currentInflammationLevel s) 10
                && Qltb (currentPusLevel s) 5
             then set_simulationStage "resolved" s
             else s in
    let s := set_healingProgress (healingProgress s + healingRate) s in
    set_healingProgress (Qmin (healingProgress s) 100) s
  else s.

(** Lines 130-134: log the current state periodically.  [%] is the remainder
    of JavaScript, whose sign follows the dividend. *)
Definition log_state_periodically (w : World) : World :=
  let s := sim w in
  if (Z.rem (Qfloor (simulationTime s)) 10 =? 0)%Z
     && strict_neq_opt (Qfloor (simulationTime s / 10)) (lastLogTime s)
  then
    let s := set_lastLogTime (Some (Qfloor (simulationTime s / 10))) s in
    {| sim := s;
       console := console w ++
         [console_log_state (Qfloor (simulationTime s)) (simulationStage s)
            (currentSebumLevel s) (currentBacteriaLevel s)
            (currentInflammationLevel s) (currentNeutrophilLevel s)
            (currentPusLevel s)] |}
  else w.

(** The level updates of [updateBiologicalState(dt)], lines 74-128. *)
Definition integrate (dt : Q) (s : AcneSimulation) : AcneSimulation :=
  update_healing dt
    (update_pus dt (update_inflammation dt (update_bacteria dt (update_sebum dt s)))).

Definition updateBiologicalState (dt : Q) (w : World) : World :=
  log_state_periodically (on_sim (integrate dt) w).

(** [this.updateStageVisuals()], called by [checkStageTransitions] after it
    has assigned the new stage.  The method of that name belongs to the
    visualization class; [AcneSimulation] declares none. *)
Definition this_updateStageVisuals : Method :=
  invoke "this" "updateStageVisuals" no_body.

(** A firing branch of [checkStageTransitions]: log, assign the stage, then
    call [this.updateStageVisuals()]. *)
Definition transition (msg stage : string) : Method :=
  pure (log (console_log msg)) ;;
  pure (on_sim (set_simulationStage stage)) ;;
  this_updateStageVisuals.

(** [checkStageTransitions()] (lines 138-212).  A stage string that matches
    no [case] falls through the [switch]. *)
Definition checkStageTransitions : Method :=
  pure (log (console_log "Checking stage transitions...")) ;;
  fun w =>
    let s := sim w in
    let stage := simulationStage s in
    if (stage =? "incubation")%string then
      if Qgtb (currentBacteriaLevel s) BACTERIA_THRESHOLD
         && Qgtb (currentInflammationLevel s) INFLAMMATION_THRESHOLD
      then transition "Transitioning from incubation to comedone" "comedone" w
      else (Normal, w)
    else if (stage =? "comedone")%string then
      if Qgtb (currentInflammationLevel s) INFLAMMATION_THRESHOLD
      then transition "Transitioning from comedone to papule" "papule" w
      else (Normal, w)
    else if (stage =? "papule")%string then
      if Qgtb (currentPusLevel s) PUS_THRESHOLD
      then transition "Transitioning from papule to pustule" "pustule" w
      else (Normal, w)
    else if (stage =? "pustule")%string then
      if Qgtb (currentPusLevel s) RUPTURE_THRESHOLD
      then transition "Transitioning from pustule to rupture" "rupture" w
      else (Normal, w)
    else if (stage =? "rupture")%string then
      if Qgtb (healingProgress s) HEALING_THRESHOLD
      then transition "Healing successful, transitioning to healing stage"
             "healing" w
      else if Qgtb (currentBacteriaLevel s) BACTERIA_THRESHOLD
              || Qgtb (currentInflammationLevel s) BACTERIA_THRESHOLD
      then transition "Healing unsuccessful, condition worsening" "worsening" w
      else (Normal, w)
    else if (stage =? "healing")%string then
      if Qgeb (healingProgress s) RESOLVED_THRESHOLD
      then transition "Healing complete, transitioning to resolved" "resolved" w
      else (Normal, w)
    else if (stage =? "worsening")%string then
      (Normal, log (console_log "Remaining in worsening stage") w)
    else if (stage =? "resolved")%string then
      (Normal, log (console_log "Remaining in resolved stage") w)
    else (Normal, w).

(** [setProgressionAccelerator(value)] (lines 215-218), for a [value] that is
    a finite number.  ([Math.min] and [Math.max] return [NaN] on [NaN], which
    the method would store; the repository has no caller of the method.) *)
Definition setProgressionAccelerator (value : Q) (w : World) : World :=
  let w := on_sim (set_progressionAccelerator (Qmax 0.1 (Qmin 10.0 value))) w in
  log (console_log_accelerator (progressionAccelerator (sim w))) w.

(** [advanceToNextStage()] (lines 221-275). *)
Definition advanceToNextStage (w : World) : World :=
  let s := sim w in
  let stage := simulationStage s in
  if (stage =? "incubation")%string then
    let s := set_simulationStage "comedone" s in
    let s := set_currentSebumLevel SEBUM_THRESHOLD s in
    log (console_log "MANUAL ADVANCE: Incubation → Comedone")
        {| sim := s; console := console w |}
  else if (stage =? "comedone")%string then
    let s := set_simulationStage "papule" s in
    let s := set_currentInflammationLevel INFLAMMATION_THRESHOLD s in
    let s := set_currentBacteriaLevel
               (Qmax (currentBacteriaLevel s) (BACTERIA_THRESHOLD + 5)) s in
    log (console_log "MANUAL ADVANCE: Comedone → Papule")
        {| sim := s; console := console w |}
  else if (stage =? "papule")%string then
    let s := set_simulationStage "pustule" s in
    let s := set_currentPusLevel PUS_THRESHOLD s in
    log (console_log "MANUAL ADVANCE: Papule → Pustule")
        {| sim := s; console := console w |}
  else if (stage =? "pustule")%string then
    let s := set_simulationStage "rupture" s in
    let s := set_currentPusLevel RUPTURE_THRESHOLD s in
    let s := set_healingProgress 0 s in
    log (console_log "MANUAL ADVANCE: Pustule → Rupture")
        {| sim := s; console := console w |}
  else if (stage =? "rupture")%string then
    let s := set_simulationStage "healing" s in
    let s := set_healingProgress HEALING_THRESHOLD s in
    log (console_log "MANUAL ADVANCE: Rupture → Healing")
        {| sim := s; console := console w |}
  else if (stage =? "healing")%string then
    let s := set_simulationStage "resolved" s in
    let s := set_healingProgress RESOLVED_THRESHOLD s in
    let s := set_currentInflammationLevel 0 s in
    let s := set_currentPusLevel 0 s in
    log (console_log "MANUAL ADVANCE: Healing → Resolved")
        {| sim := s; console := console w |}
  else if (stage =? "resolved")%string then
    let s := set_simulationStage "incubation" s in
    let s := set_currentSebumLevel 20 s in
    let s := set_currentBacteriaLevel 0 s in
    let s := set_currentInflammationLevel 0 s in
    let s := set_currentNeutrophilLevel 0 s in
    let s := set_currentPusLevel 0 s in
    let s := set_healingProgress 0 s in
    log (console_log "MANUAL ADVANCE: Resolved → Incubation (Reset)")
        {| sim := s; console := console w |}
  else w.

(** [resetStageProgress()] (lines 337-369). *)
Definition resetStageProgress (s : AcneSimulation) : AcneSimulation :=
  let stage := simulationStage s in
  if (stage =? "incubation")%string then
    set_currentInflammationLevel 0 (set_currentBacteriaLevel 0 s)
  else if (stage =? "comedone")%string then
    set_currentInflammationLevel (INFLAMMATION_THRESHOLD * 0.8)
      (set_currentBacteriaLevel (BACTERIA_THRESHOLD * 0.8) s)
  else if (stage =? "papule")%string then
    set_currentPusLevel 0
      (set_currentInflammationLevel (INFLAMMATION_THRESHOLD * 0.8) s)
  else if (stage =? "pustule")%string then
    set_currentPusLevel (PUS_THRESHOLD * 0.8) s
  else if (stage =? "rupture")%string then
    set_healingProgress 0 (set_currentPusLevel (RUPTURE_THRESHOLD * 0.8) s)
  else if (stage =? "healing")%string then
    set_healingProgress (HEALING_THRESHOLD * 0.8) s
  else if (stage =? "worsening")%string then
    set_currentInflammationLevel (INFLAMMATION_THRESHOLD * 0.8)
      (set_currentBacteriaLevel (BACTERIA_THRESHOLD * 0.8) s)
  else if (stage =? "resolved")%string then
    set_healingProgress 100 s
  else s.

(** [updateProgressBar()], [updateVisualization()], [updateUI()] and
    [updateParameterDisplays()] read the engine and write only to the page
    (every element is looked up and guarded); [this.visualization] is never
    assigned, so [updateVisualization] does nothing.  None of them changes the
    engine object or the console. *)
Definition updateProgressBar (w : World) : World := w.
Definition updateVisualization (w : World) : World := w.
Definition updateParameterDisplays (w : World) : World := w.
Definition updateUI (w : World) : World := updateParameterDisplays w.

(** [setStage(stage)] (lines 296-334).  The call into the visualization
    object and the writes to the page leave the engine untouched. *)
Definition validStages : list string :=
  [ "incubation"; "comedone"; "papule"; "pustule";
    "rupture"; "healing"; "worsening"; "resolved" ].

Definition includes (l : list string) (x : string) : bool :=
  existsb (fun y => (y =? x)%string) l.

Definition setStage (stage : string) (w : World) : World :=
  let w := log (console_log ("Setting stage to: " ++ stage)) w in
  if negb (includes validStages stage) then
    log (console_error ("Invalid stage: " ++ stage)) w
  else
    let w := on_sim (set_simulationStage stage) w in
    let w := on_sim resetStageProgress w in
    updateProgressBar w.

(** [updateParameters()] (lines 519-528). *)
Definition updateParameters (w : World) : World :=
  let w := on_sim (fun s => set_simulationTime (simulationTime s + 1 / 60) s) w in
  let w := on_sim updateDerivedRates w in
  updateBiologicalState (1 / 60) w.

(** [update()] (lines 278-293).  The method declares no parameter: whatever
    arguments a caller passes are discarded. *)
Definition update (arguments : list Q) : Method :=
  pure updateParameters ;;
  checkStageTransitions ;;
  pure updateVisualization ;;
  pure updateProgressBar ;;
  pure updateUI.

(** ** The driver, [main.js] *)

(** Only the calls into the engine are kept; the driver's own flags, the page
    and the visualization object are outside the engine. *)
Module Main.

(** [simulationLoop(timestamp)] (lines 262-283), past its running check, with
    [scaledDelta] the frame time scaled by the speed multiplier. *)
Definition simulationLoop (scaledDelta : Q) : Method :=
  invoke "simulation" "update" (update [scaledDelta]).

(** [resetSimulation()] (lines 245-259). *)
Definition resetSimulation : Method :=
  invoke "simulation" "reset" no_body ;;
  pure (log (console_log "Simulation reset to initial state")).

(** The slider of each control parameter and the setter called for it
    (the [switch] of [handleSliderChange], lines 181-206). *)
Definition slider_setters : list (string * string) :=
  [ ("sebum-slider", "setSebumParam");
    ("bacteria-slider", "setBacteriaParam");
    ("medication-slider", "setMedicationParam");
    ("inflammation-slider", "setInflammationParam");
    ("healing-slider", "setHealingParam");
    ("temperature-slider", "setTemperatureParam");
    ("humidity-slider", "setHumidityParam");
    ("friction-slider", "setFrictionParam") ].

(** [handleSliderChange(event)] (lines 172-212), for the slider
    [event.target.id] and its parsed value. *)
Definition handleSliderChange (sliderId : string) (value : Q) : Method :=
  if (sliderId =? "sebum-slider")%string then
    invoke "simulation" "setSebumParam" no_body
  else if (sliderId =? "bacteria-slider")%string then
    invoke "simulation" "setBacteriaParam" no_body
  else if (sliderId =? "medication-slider")%string then
    invoke "simulation" "setMedicationParam" no_body
  else if (sliderId =? "inflammation-slider")%string then
    invoke "simulation" "setInflammationParam" no_body
  else if (sliderId =? "healing-slider")%string then
    invoke "simulation" "setHealingParam" no_body
  else if (sliderId =? "temperature-slider")%string then
    invoke "simulation" "setTemperatureParam" no_body
  else if (sliderId =? "humidity-slider")%string then
    invoke "simulation" "setHumidityParam" no_body
  else if (sliderId =? "friction-slider")%string then
    invoke "simulation" "setFrictionParam" no_body
  else pure (fun w => w).

(** [skipToNextStage()] (lines 322-327). *)
Definition skipToNextStage : Method :=
  invoke "simulation" "advanceToNextStage" (pure advanceToNextStage) ;;
  pure (fun w =>
    log (console_log ("Manually advanced to stage: " ++ simulationStage (sim w))) w).

End Main.

(** ** Vocabulary of the properties *)

(** The world a call leaves behind, whether it returned or threw. *)
Definition after (r : Completion * World) : World := snd r.

(** A freshly constructed engine with an empty console. *)
Definition fresh : World := {| sim := new_AcneSimulation; console := [] |}.

(** The engine after [n] consecutive calls of [advanceToNextStage]. *)
Definition advanced (n : nat) (w : World) : AcneSimulation :=
  sim (Nat.iter n advanceToNextStage w).

(** A fresh engine advanced by hand to stage rupture. *)
Definition ruptured : World := Nat.iter 4 advanceToNextStage fresh.

(** An engine in stage healing whose inflammation and pus are nearly gone. *)
Definition nearly_healed : AcneSimulation :=
  set_currentPusLevel 2
    (set_currentInflammationLevel 5 (advanced 5 fresh)).

(** A fresh engine with the medication slider at its maximum, and the same
    engine some ticks later. *)
Definition medicated : World := on_sim (set_medicationValue 1000) fresh.

Definition medicated_after (ticks : nat) : World :=
  Nat.iter ticks (fun w => after (update [] w)) medicated.

(** The seven biological levels, as readers of the engine object. *)
Definition levels : list (AcneSimulation -> Q) :=
  [ currentSebumLevel; currentBacteriaLevel; currentInflammationLevel;
    currentNeutrophilLevel; currentPusLevel; currentMedicationLevel;
    healingProgress ].

(** The four blocks of [updateBiologicalState] that precede the healing
    block. *)
Definition before_healing (dt : Q) (s : AcneSimulation) : AcneSimulation :=
  update_pus dt (update_inflammation dt (update_bacteria dt (update_sebum dt s))).

(** The engine after [updateParameters], up to the write of [lastLogTime]. *)
Definition ticked (s : AcneSimulation) : AcneSimulation :=
  integrate (1 / 60)
    (updateDerivedRates (set_simulationTime (simulationTime s + 1 / 60) s)).

(** What a block of the level updates never writes: the clock, the healing
    slider and the medication level. *)
Definition untouched (s s' : AcneSimulation) : Prop :=
  simulationTime s' = simulationTime s /\
  healingValue s' = healingValue s /\
  currentMedicationLevel s' = currentMedicationLevel s.


(** The guard under which [checkStageTransitions] assigns a stage (lines
    144-195): the condition the levels meet when the stage machine enters
    it.  No branch enters incubation. *)
Definition entry_condition (stage : string) (s : AcneSimulation) : bool :=
  if (stage =? "comedone")%string then
    Qgtb (currentBacteriaLevel s) BACTERIA_THRESHOLD
    && Qgtb (currentInflammationLevel s) INFLAMMATION_THRESHOLD
  else if (stage =? "papule")%string then
    Qgtb (currentInflammationLevel s) INFLAMMATION_THRESHOLD
  else if (stage =? "pustule")%string then
    Qgtb (currentPusLevel s) PUS_THRESHOLD
  else if (stage =? "rupture")%string then
    Qgtb (currentPusLevel s) RUPTURE_THRESHOLD
  else if (stage =? "healing")%string then
    Qgtb (healingProgress s) HEALING_THRESHOLD
  else if (stage =? "worsening")%string then
    Qgtb (currentBacteriaLevel s) BACTERIA_THRESHOLD
    || Qgtb (currentInflammationLevel s) BACTERIA_THRESHOLD
  else if (stage =? "resolved")%string then
    Qgeb (healingProgress s) RESOLVED_THRESHOLD
  else true.


(** The engine with the humidity and friction sliders, and the two rates
    derived from them, blanked out. *)
Definition erase_hf (s : AcneSimulation) : AcneSimulation :=
  set_humidityEffect None
    (set_baselineInflammation None
       (set_frictionValue 0 (set_humidityValue 0 s))).

(** Two engines that agree on everything but those four properties. *)
Definition agree_but_hf (s1 s2 : AcneSimulation) : Prop :=
  erase_hf s1 = erase_hf s2.

Definition worlds_agree_but_hf (w1 w2 : World) : Prop :=
  agree_but_hf (sim w1) (sim w2) /\ console w1 = console w2.

Definition between (lo hi x : Q) : Prop := lo <= x /\ x <= hi.

(** The eight control parameters, each on the 0-1000 scale of the sliders. *)
Definition parameters_in_range (s : AcneSimulation) : Prop :=
  between 0 1000 (sebumValue s) /\
  between 0 1000 (bacteriaValue s) /\
  between 0 1000 (medicationValue s) /\
  between 0 1000 (inflammationValue s) /\
  between 0 1000 (healingValue s) /\
  between 0 1000 (temperatureValue s) /\
  between 0 1000 (humidityValue s) /\
  between 0 1000 (frictionValue s).

(** The five clamped levels and healingProgress, each within 0-100. *)
Definition levels_in_range (s : AcneSimulation) : Prop :=
  between 0 100 (currentSebumLevel s) /\
  between 0 100 (currentBacteriaLevel s) /\
  between 0 100 (currentInflammationLevel s) /\
  between 0 100 (currentNeutrophilLevel s) /\
  between 0 100 (currentPusLevel s) /\
  between 0 100 (healingProgress s).

(** What the level updates rely on and keep: parameters and levels in range,
    and an accelerator and two rates that are not negative. *)
Definition integrable (s : AcneSimulation) : Prop :=
  parameters_in_range s /\
  levels_in_range s /\
  0 <= progressionAccelerator s /\
  0 <= sebumRate s /\
  0 <= bacteriaGrowthRate s.

(** ** Further methods and readers *)

(** [skipToNextStage()] of the class (lines 426-516).  [this.onStageChange]
    is assigned nowhere, so the callback at the end is never made; the
    method logs nothing. *)
Definition skipToNextStage (w : World) : World :=
  on_sim (fun s =>
    let stage := simulationStage s in
    if (stage =? "incubation")%string then
      let s := set_currentSebumLevel (SEBUM_THRESHOLD + 0.1) s in
      let s := set_currentBacteriaLevel 15 s in
      let s := set_currentInflammationLevel 5 s in
      set_simulationStage "comedone" s
    else if (stage =? "comedone")%string then
      let s := set_currentSebumLevel 85 s in
      let s := set_currentBacteriaLevel (BACTERIA_THRESHOLD + 0.1) s in
      let s := set_currentInflammationLevel (INFLAMMATION_THRESHOLD + 0.1) s in
      let s := set_currentNeutrophilLevel 20 s in
      set_simulationStage "papule" s
    else if (stage =? "papule")%string then
      let s := set_currentSebumLevel 90 s in
      let s := set_currentBacteriaLevel 75 s in
      let s := set_currentInflammationLevel 70 s in
      let s := set_currentNeutrophilLevel 60 s in
      let s := set_currentPusLevel (PUS_THRESHOLD + 0.1) s in
      set_simulationStage "pustule" s
    else if (stage =? "pustule")%string then
      let s := set_currentSebumLevel 85 s in
      let s := set_currentBacteriaLevel 85 s in
      let s := set_currentInflammationLevel 85 s in
      let s := set_currentNeutrophilLevel 90 s in
      let s := set_currentPusLevel (RUPTURE_THRESHOLD + 0.1) s in
      set_simulationStage "rupture" s
    else if (stage =? "rupture")%string then
      let s := set_currentSebumLevel 40 s in
      let s := set_currentBacteriaLevel 95 s in
      let s := set_currentInflammationLevel 100 s in
      let s := set_currentNeutrophilLevel 100 s in
      let s := set_currentPusLevel 60 s in
      let s := set_healingProgress (HEALING_THRESHOLD + 0.1) s in
      set_simulationStage "healing" s
    else if (stage =? "healing")%string then
      let s := set_currentSebumLevel 30 s in
      let s := set_currentBacteriaLevel 30 s in
      let s := set_currentInflammationLevel 40 s in
      let s := set_currentNeutrophilLevel 30 s in
      let s := set_currentPusLevel 10 s in
      let s := set_healingProgress (RESOLVED_THRESHOLD + 0.1) s in
      set_simulationStage "resolved" s
    else if (stage =? "resolved")%string then
      let s := set_currentSebumLevel 20 s in
      let s := set_currentBacteriaLevel 10 s in
      let s := set_currentInflammationLevel 15 s in
      let s := set_currentNeutrophilLevel 5 s in
      let s := set_currentPusLevel 0 s in
      set_healingProgress 100 s
    else s) w.

(** The [progress] that [updateProgressBar()] computes (lines 378-418) and
    the percentage it gives the bar as its width (line 421). *)
Definition stageProgress (s : AcneSimulation) : Q :=
  let stage := simulationStage s in
  if (stage =? "incubation")%string then
    Qmax ((currentBacteriaLevel s / BACTERIA_THRESHOLD) * 100)
         ((currentInflammationLevel s / INFLAMMATION_THRESHOLD) * 100)
  else if (stage =? "comedone")%string then
    (currentInflammationLevel s / INFLAMMATION_THRESHOLD) * 100
  else if (stage =? "papule")%string then
    (currentPusLevel s / PUS_THRESHOLD) * 100
  else if (stage =? "pustule")%string then
    (currentPusLevel s / RUPTURE_THRESHOLD) * 100
  else if (stage =? "rupture")%string then
    let healingPercent := (healingProgress s / HEALING_THRESHOLD) * 100 in
    let bacteriaPercent := (currentBacteriaLevel s / BACTERIA_THRESHOLD) * 100 in
    let inflammationPercent :=
      (currentInflammationLevel s / BACTERIA_THRESHOLD) * 100 in
    Qmax healingPercent (Qmax bacteriaPercent inflammationPercent)
  else if (stage =? "healing")%string then
    (healingProgress s / RESOLVED_THRESHOLD) * 100
  else if (stage =? "worsening")%string then
    Qmin ((currentBacteriaLevel s / BACTERIA_THRESHOLD) * 100)
         ((currentInflammationLevel s / INFLAMMATION_THRESHOLD) * 100)
  else if (stage =? "resolved")%string then
    100
  else 0.

Definition progressBarWidth (s : AcneSimulation) : Q :=
  Qmin 100 (Qmax 0 (stageProgress s)).

(** [timeInHours] of [updateUIFromSimulation()] ([main.js], line 147).  The
    clock it reads is a sum of ticks, exact here and rounded at every tick in
    the code, so the two can differ in their last places after many ticks;
    the properties of the display below keep a margin of a tick. *)
Definition timeInHours (s : AcneSimulation) : Z :=
  Qfloor (simulationTime s / 3600).

(** The world after [n] calls of [update], each left as it ended. *)
Definition after_ticks (n : nat) (w : World) : World :=
  Nat.iter n (fun w => after (update [] w)) w.

(** The operations of the engine that a caller can make;
    [setProgressionAccelerator] with a finite number. *)
Inductive Operation : Type :=
| op_update
| op_advanceToNextStage
| op_skipToNextStage
| op_setStage (stage : string)
| op_setProgressionAccelerator (value : Q).

Definition perform (op : Operation) (w : World) : World :=
  match op with
  | op_update => after (update [] w)
  | op_advanceToNextStage => advanceToNextStage w
  | op_skipToNextStage => skipToNextStage w
  | op_setStage stage => setStage stage w
  | op_setProgressionAccelerator value => setProgressionAccelerator value w
  end.

Definition perform_all (ops : list Operation) (w : World) : World :=
  fold_left (fun w op => perform op w) ops w.

(** The moves of the stage machine: a stage and a stage that
    [checkStageTransitions] can assign from it (lines 141-211). *)
Definition stage_moves : list (string * string) :=
  [ ("incubation", "comedone"); ("comedone", "papule");
    ("papule", "pustule"); ("pustule", "rupture");
    ("rupture", "healing"); ("rupture", "worsening");
    ("healing", "resolved") ].

(** The eight control parameters and the time scale. *)
Definition parameters (s : AcneSimulation) : list Q :=
  [ sebumValue s; bacteriaValue s; medicationValue s; inflammationValue s;
    healingValue s; temperatureValue s; humidityValue s; frictionValue s;
    timeScale s ].

(** The ranges that every operation of the engine keeps. *)
Definition reachable_ranges (s : AcneSimulation) : Prop :=
  parameters_in_range s /\
  between 0.1 10 (progressionAccelerator s) /\
  levels_in_range s /\
  between 0 1000 (currentMedicationLevel s) /\
  In (simulationStage s) validStages.

(** The biology but for the sebum and medication levels: what a tick leaves
    alone while nothing but sebum accumulates. *)
Definition quiet (s s' : AcneSimulation) : Prop :=
  simulationStage s' = simulationStage s /\
  currentBacteriaLevel s' = currentBacteriaLevel s /\
  currentInflammationLevel s' = currentInflammationLevel s /\
  currentNeutrophilLevel s' = currentNeutrophilLevel s /\
  currentPusLevel s' = currentPusLevel s /\
  healingProgress s' = healingProgress s.

(** The two quantities that only accumulate: sebum and healingProgress. *)
Definition grown (s s' : AcneSimulation) : Prop :=
  currentSebumLevel s <= currentSebumLevel s' /\
  healingProgress s <= healingProgress s'.

(** What the level updates and the rate deriver never write: the
    parameters and the accelerator. *)
Definition same_settings (s s' : AcneSimulation) : Prop :=
  parameters s' = parameters s /\
  progressionAccelerator s' = progressionAccelerator s.

(** * Properties *)

(** ** Tactics *)

(** Reading a field through the field updates. *)
Ltac fields :=
  cbn [
    simulationTime timeScale simulationStage sebumValue bacteriaValue
    medicationValue inflammationValue healingValue temperatureValue
    humidityValue frictionValue sebumRate bacteriaGrowthRate
    currentSebumLevel currentBacteriaLevel currentInflammationLevel
    currentNeutrophilLevel currentPusLevel currentMedicationLevel
    progressionAccelerator healingProgress baselineInflammation
    humidityEffect lastLogTime set_simulationTime set_simulationStage
    set_medicationValue set_humidityValue set_frictionValue set_sebumRate
    set_bacteriaGrowthRate set_currentSebumLevel set_currentBacteriaLevel
    set_currentInflammationLevel set_currentNeutrophilLevel
    set_currentPusLevel set_currentMedicationLevel set_progressionAccelerator
    set_healingProgress set_baselineInflammation set_humidityEffect
    set_lastLogTime sim console on_sim log ].

Ltac fields_in H :=
  cbn [
    simulationTime timeScale simulationStage sebumValue bacteriaValue
    medicationValue inflammationValue healingValue temperatureValue
    humidityValue frictionValue sebumRate bacteriaGrowthRate
    currentSebumLevel currentBacteriaLevel currentInflammationLevel
    currentNeutrophilLevel currentPusLevel currentMedicationLevel
    progressionAccelerator healingProgress baselineInflammation
    humidityEffect lastLogTime set_simulationTime set_simulationStage
    set_medicationValue set_humidityValue set_frictionValue set_sebumRate
    set_bacteriaGrowthRate set_currentSebumLevel set_currentBacteriaLevel
    set_currentInflammationLevel set_currentNeutrophilLevel
    set_currentPusLevel set_currentMedicationLevel set_progressionAccelerator
    set_healingProgress set_baselineInflammation set_humidityEffect
    set_lastLogTime sim console on_sim log ] in H.

(** Case analysis on every test of the goal. *)
Ltac case_ifs :=
  repeat match goal with
         | |- context [if ?b then _ else _] => destruct b
         end.

(** From an agreement of two destructed engines to equalities of fields. *)
Ltac split_agreement H :=
  unfold agree_but_hf, erase_hf in H; fields_in H;
  injection H as ?; subst.

(** Linear goals over divisions by literals. *)
Ltac qlinear := unfold between, Qdiv in *; cbn [Qinv Qnum Qden] in *; lra.

Ltac open_integrable H :=
  unfold integrable, parameters_in_range, levels_in_range in H;
  fields_in H;
  destruct H as ((? & ? & ? & ? & ? & ? & ? & ?) &
                 (? & ? & ? & ? & ? & ?) & ? & ? & ?).

Ltac close_integrable :=
  unfold integrable, parameters_in_range, levels_in_range; fields;
  repeat match goal with |- _ /\ _ => split end; try assumption.

(** Closed comparisons, decided by evaluation. *)
Ltac qle := apply Qle_bool_imp_le; vm_compute; reflexivity.

Ltac closed_ranges :=
  unfold parameters_in_range, levels_in_range, between;
  repeat match goal with |- _ /\ _ => split end; qle.

(** ** Comparisons *)

Lemma Qgtb_true (a b : Q) : Qgtb a b = true <-> b < a.
Proof.
  unfold Qgtb. rewrite negb_true_iff. split; intro H.
  - apply Qnot_le_lt. intro L. apply Qle_bool_iff in L. congruence.
  - destruct (Qle_bool a b) eqn:E; [|reflexivity].
    apply Qle_bool_iff in E. exfalso. exact (Qlt_not_le _ _ H E).
Qed.

Lemma Qgtb_false (a b : Q) : Qgtb a b = false <-> a <= b.
Proof.
  unfold Qgtb. rewrite negb_false_iff. apply Qle_bool_iff.
Qed.

Lemma Qgtb_irrefl (x : Q) : Qgtb x x = false.
Proof. apply Qgtb_false, Qle_refl. Qed.

Lemma Qltb_true (a b : Q) : Qltb a b = true <-> a < b.
Proof. exact (Qgtb_true b a). Qed.

Lemma Qltb_false (a b : Q) : Qltb a b = false <-> b <= a.
Proof. exact (Qgtb_false b a). Qed.

Lemma Qgeb_true (a b : Q) : Qgeb a b = true <-> b <= a.
Proof. unfold Qgeb. apply Qle_bool_iff. Qed.

Lemma clamp_add (x r : Q) :
  between 0 100 x -> 0 <= r -> between 0 100 (Qmin 100 (x + r)).
Proof.
  intros [L U] R. split.
  - apply Q.min_glb; lra.
  - apply Q.le_min_l.
Qed.

Lemma clamp_add_r (x r : Q) :
  between 0 100 x -> 0 <= r -> between 0 100 (Qmin (x + r) 100).
Proof.
  intros [L U] R. split.
  - apply Q.min_glb; lra.
  - apply Q.le_min_r.
Qed.

Lemma clamp_sub (x r : Q) :
  between 0 100 x -> 0 <= r -> between 0 100 (Qmax 0 (x - r)).
Proof.
  intros [L U] R. split.
  - apply Q.le_max_l.
  - apply Q.max_lub; lra.
Qed.

Lemma excess_nonneg (b : Q) : 0 <= (Qmax b 30 - 30) / 40.
Proof.
  pose proof (Q.le_max_r b 30). unfold Qdiv. cbn [Qinv Qnum Qden]. lra.
Qed.

Lemma tick_nonneg : 0 <= 1 / 60.
Proof. unfold Qdiv. cbn [Qinv Qnum Qden]. lra. Qed.


Lemma iter_zero {A : Type} (f : A -> A) (x : A) : Nat.iter 0 f x = x.
Proof. reflexivity. Qed.

(** ** Field updates *)

Lemma set_simulationStage_same (s : AcneSimulation) :
  set_simulationStage (simulationStage s) s = s.
Proof. destruct s. reflexivity. Qed.

Lemma set_lastLogTime_same (s : AcneSimulation) :
  set_lastLogTime (lastLogTime s) s = s.
Proof. destruct s. reflexivity. Qed.

(** Writing the stage and [lastLogTime] leaves the clock and the levels. *)
Lemma written_over (s s' : AcneSimulation) (stage : string) (logged : option Z) :
  s' = set_simulationStage stage (set_lastLogTime logged s) ->
  simulationTime s' = simulationTime s /\
  Forall (fun level : AcneSimulation -> Q => level s' = level s) levels.
Proof.
  intro E. subst s'. split; [reflexivity|].
  unfold levels. repeat (apply Forall_cons; [reflexivity|]).
  apply Forall_nil.
Qed.

Lemma written_over_ranges (s : AcneSimulation) (stage : string)
    (logged : option Z) :
  levels_in_range s ->
  levels_in_range (set_simulationStage stage (set_lastLogTime logged s)) /\
  currentMedicationLevel (set_simulationStage stage (set_lastLogTime logged s)) =
    currentMedicationLevel s.
Proof. intro H. split; [exact H|reflexivity]. Qed.

Lemma set_simulationTime_ranges (t : Q) (s : AcneSimulation) :
  (parameters_in_range s -> parameters_in_range (set_simulationTime t s)) /\
  (levels_in_range s -> levels_in_range (set_simulationTime t s)).
Proof. split; intro H; exact H. Qed.

(** ** Calls *)

Lemma updateStageVisuals_undeclared : has_method "updateStageVisuals" = false.
Proof. reflexivity. Qed.

(** A firing branch assigns the stage, logs once, and ends abruptly. *)
Lemma transition_result (msg stage : string) (w : World) :
  transition msg stage w =
  (Abrupt (TypeError "this.updateStageVisuals is not a function"),
   {| sim := set_simulationStage stage (sim w);
      console := console w ++ [console_log msg] |}).
Proof. reflexivity. Qed.

(** The page updates that end [update] change nothing of the world, so a
    call of [update] ends as its stage check ends. *)
Lemma update_run (arguments : list Q) (w : World) :
  update arguments w = checkStageTransitions (updateParameters w).
Proof.
  unfold update, andThen, pure.
  destruct (checkStageTransitions (updateParameters w)) as [[|e] w'];
    reflexivity.
Qed.

Lemma update_after (arguments : list Q) (w : World) :
  after (update arguments w) = after (checkStageTransitions (updateParameters w)).
Proof. rewrite update_run. reflexivity. Qed.

(** ** What the level updates leave alone *)

Section Blocks.

Variable dt : Q.

Lemma untouched_trans (s1 s2 s3 : AcneSimulation) :
  untouched s1 s2 -> untouched s2 s3 -> untouched s1 s3.
Proof.
  intros (A1 & B1 & C1) (A2 & B2 & C2).
  repeat split; congruence.
Qed.

Lemma update_sebum_untouched (s : AcneSimulation) :
  untouched s (update_sebum dt s).
Proof. repeat split. Qed.

Lemma update_bacteria_untouched (s : AcneSimulation) :
  untouched s (update_bacteria dt s).
Proof.
  unfold update_bacteria.
  destruct (negb _); [|repeat split]. cbv zeta.
  destruct (Qgtb (medicationValue _) 0); repeat split.
Qed.

Lemma update_inflammation_untouched (s : AcneSimulation) :
  untouched s (update_inflammation dt s).
Proof.
  unfold update_inflammation.
  destruct (_ || _); [|repeat split]. cbv zeta.
  destruct (Qgtb _ (INFLAMMATION_THRESHOLD / 2)); repeat split.
Qed.

Lemma update_pus_untouched (s : AcneSimulation) :
  untouched s (update_pus dt s).
Proof.
  unfold update_pus. destruct (_ && _); repeat split.
Qed.

Lemma update_healing_untouched (s : AcneSimulation) :
  untouched s (update_healing dt s).
Proof.
  unfold update_healing.
  destruct (_ || _); [|repeat split]. cbv zeta.
  destruct (_ && _); repeat split.
Qed.

Lemma before_healing_untouched (s : AcneSimulation) :
  untouched s (before_healing dt s).
Proof.
  unfold before_healing.
  eapply untouched_trans; [apply update_sebum_untouched|].
  eapply untouched_trans; [apply update_bacteria_untouched|].
  eapply untouched_trans; [apply update_inflammation_untouched|].
  apply update_pus_untouched.
Qed.

Lemma integrate_untouched (s : AcneSimulation) :
  untouched s (integrate dt s).
Proof.
  eapply untouched_trans; [apply before_healing_untouched|].
  apply update_healing_untouched.
Qed.

Lemma update_bacteria_stage (s : AcneSimulation) :
  simulationStage (update_bacteria dt s) = simulationStage s.
Proof.
  unfold update_bacteria.
  destruct (negb _); [|reflexivity]. cbv zeta.
  destruct (Qgtb (medicationValue _) 0); reflexivity.
Qed.

Lemma update_inflammation_stage (s : AcneSimulation) :
  simulationStage (update_inflammation dt s) = simulationStage s.
Proof.
  unfold update_inflammation.
  destruct (_ || _); [|reflexivity]. cbv zeta.
  destruct (Qgtb _ (INFLAMMATION_THRESHOLD / 2)); reflexivity.
Qed.

Lemma update_pus_stage (s : AcneSimulation) :
  simulationStage (update_pus dt s) = simulationStage s.
Proof.
  unfold update_pus. destruct (_ && _); reflexivity.
Qed.

Lemma before_healing_stage (s : AcneSimulation) :
  simulationStage (before_healing dt s) = simulationStage s.
Proof.
  unfold before_healing.
  rewrite update_pus_stage, update_inflammation_stage, update_bacteria_stage.
  reflexivity.
Qed.

End Blocks.

Lemma updateDerivedRates_keeps (s : AcneSimulation) :
  simulationStage (updateDerivedRates s) = simulationStage s /\
  simulationTime (updateDerivedRates s) = simulationTime s.
Proof.
  unfold updateDerivedRates. cbv zeta. case_ifs; split; reflexivity.
Qed.

(** The stage machine writes the stage and nothing else of the engine. *)
Lemma checkStageTransitions_keeps (w : World) :
  sim (after (checkStageTransitions w)) =
  set_simulationStage
    (simulationStage (sim (after (checkStageTransitions w)))) (sim w).
Proof.
  destruct w as [s c]. unfold after, checkStageTransitions, andThen, pure.
  cbv zeta. fields.
  case_ifs; rewrite ?transition_result; cbn [snd]; fields;
    try reflexivity; symmetry; apply set_simulationStage_same.
Qed.

(** The periodic log writes [lastLogTime] and nothing else of the engine. *)
Lemma log_state_periodically_keeps (w : World) :
  sim (log_state_periodically w) =
  set_lastLogTime (lastLogTime (sim (log_state_periodically w))) (sim w).
Proof.
  unfold log_state_periodically. cbv zeta.
  destruct (_ && _); fields.
  - reflexivity.
  - symmetry. apply set_lastLogTime_same.
Qed.

Lemma ticked_eq (s : AcneSimulation) :
  ticked s =
  integrate (1 / 60)
    (updateDerivedRates (set_simulationTime (simulationTime s + 1 / 60) s)).
Proof. reflexivity. Qed.

Lemma ticked_time (s : AcneSimulation) :
  simulationTime (ticked s) = simulationTime s + 1 / 60.
Proof.
  rewrite ticked_eq.
  destruct (integrate_untouched (1 / 60)
              (updateDerivedRates
                 (set_simulationTime (simulationTime s + 1 / 60) s)))
    as (T & _ & _).
  rewrite T. rewrite (proj2 (updateDerivedRates_keeps _)). reflexivity.
Qed.

Lemma updateParameters_sim (w : World) :
  sim (updateParameters w) =
  set_lastLogTime (lastLogTime (sim (updateParameters w))) (ticked (sim w)).
Proof.
  unfold updateParameters, updateBiologicalState. cbv zeta.
  rewrite log_state_periodically_keeps at 1.
  cbn [sim on_sim]. unfold ticked. reflexivity.
Qed.

(** The engine a call of [update] leaves is the ticked engine with the stage
    and [lastLogTime] written over. *)
Lemma update_sim (arguments : list Q) (w : World) :
  sim (after (update arguments w)) =
  set_simulationStage (simulationStage (sim (after (update arguments w))))
    (set_lastLogTime (lastLogTime (sim (updateParameters w)))
       (ticked (sim w))).
Proof.
  rewrite update_after.
  rewrite checkStageTransitions_keeps at 1.
  rewrite updateParameters_sim at 1. reflexivity.
Qed.

(** ** The rupture branch of the stage machine *)

Lemma checkStageTransitions_rupture (w : World) :
  simulationStage (sim w) = "rupture" ->
  checkStageTransitions w =
  let w' := log (console_log "Checking stage transitions...") w in
  if Qgtb (healingProgress (sim w)) HEALING_THRESHOLD
  then transition "Healing successful, transitioning to healing stage" "healing" w'
  else if Qgtb (currentBacteriaLevel (sim w)) BACTERIA_THRESHOLD
          || Qgtb (currentInflammationLevel (sim w)) BACTERIA_THRESHOLD
  then transition "Healing unsuccessful, condition worsening" "worsening" w'
  else (Normal, w').
Proof.
  intro H. unfold checkStageTransitions, andThen, pure. cbn [log sim].
  rewrite H. reflexivity.
Qed.

(** C7.  The transition check runs on the world the integration leaves.
    In stage rupture it moves to healing when healingProgress exceeds
    HEALING_THRESHOLD (30); failing that, to worsening when bacteria or
    inflammation exceeds BACTERIA_THRESHOLD (60), the inflammation being
    compared with the bacteria constant and not with INFLAMMATION_THRESHOLD
    (40); failing both, the stage stays rupture. *)
Theorem rupture_transitions (w : World) :
  simulationStage (sim w) = "rupture" ->
  let hp := healingProgress (sim w) in
  let bacteria := currentBacteriaLevel (sim w) in
  let inflammation := currentInflammationLevel (sim w) in
  let stage' := simulationStage (sim (after (checkStageTransitions w))) in
  (forall (arguments : list Q) (w0 : World),
     update arguments w0 = checkStageTransitions (updateParameters w0)) /\
  (HEALING_THRESHOLD = 30 /\ BACTERIA_THRESHOLD = 60 /\
   INFLAMMATION_THRESHOLD = 40) /\
  (HEALING_THRESHOLD < hp -> stage' = "healing") /\
  (hp <= HEALING_THRESHOLD ->
   BACTERIA_THRESHOLD < bacteria \/ BACTERIA_THRESHOLD < inflammation ->
   stage' = "worsening") /\
  (hp <= HEALING_THRESHOLD ->
   bacteria <= BACTERIA_THRESHOLD -> inflammation <= BACTERIA_THRESHOLD ->
   stage' = "rupture").
Proof.
  intros H hp bacteria inflammation stage'.
  split; [exact update_run|].
  split; [repeat split|].
  subst stage'. rewrite (checkStageTransitions_rupture w H). cbv zeta.
  fold hp bacteria inflammation.
  repeat split.
  - intro Hh. apply Qgtb_true in Hh. rewrite Hh. reflexivity.
  - intros Hh Hb. apply Qgtb_false in Hh. rewrite Hh.
    assert (E : Qgtb bacteria BACTERIA_THRESHOLD
                || Qgtb inflammation BACTERIA_THRESHOLD = true).
    { apply orb_true_iff. destruct Hb as [Hb|Hb]; [left|right];
        apply Qgtb_true; exact Hb. }
    rewrite E. reflexivity.
  - intros Hh Hb Hi. apply Qgtb_false in Hh, Hb, Hi.
    rewrite Hh, Hb, Hi. cbn. exact H.
Qed.

Lemma rupture_transitions_witness :
  simulationStage (sim ruptured) = "rupture" /\
  simulationStage (sim (after (checkStageTransitions ruptured))) = "worsening".
Proof.
  split; [reflexivity|].
  apply (proj1 (proj2 (proj2 (proj2 (rupture_transitions ruptured eq_refl))))).
  - vm_compute. discriminate.
  - left. vm_compute. reflexivity.
Defined.

(** ** The level-driven promotion inside the integration step *)

Lemma update_healing_in_healing (dt : Q) (s : AcneSimulation) :
  simulationStage s = "healing" ->
  let healingRate := healingValue s / 500 * dt in
  let s' := update_healing dt s in
  currentInflammationLevel s' = Qmax 0 (currentInflammationLevel s - healingRate) /\
  currentPusLevel s' = Qmax 0 (currentPusLevel s - healingRate * 0.8) /\
  simulationStage s' =
    if Qltb (currentInflammationLevel s') 10 && Qltb (currentPusLevel s') 5
    then "resolved" else "healing".
Proof.
  intro H. unfold update_healing. rewrite H.
  cbn [String.eqb Ascii.eqb Bool.eqb orb]. cbv zeta. fields. rewrite H.
  cbn [String.eqb Ascii.eqb Bool.eqb andb].
  destruct (Qltb _ 10 && Qltb _ 5) eqn:E; fields; rewrite E;
    repeat split; try reflexivity; exact H.
Qed.

Lemma update_healing_other_stage (dt : Q) (s : AcneSimulation) :
  simulationStage s <> "healing" ->
  simulationStage (update_healing dt s) = simulationStage s.
Proof.
  intro H. unfold update_healing.
  destruct (_ || _); [|reflexivity]. cbv zeta.
  cbn [simulationStage set_currentInflammationLevel
    set_currentNeutrophilLevel set_currentPusLevel].
  destruct (simulationStage s =? "healing")%string eqn:E.
  - apply String.eqb_eq in E. contradiction.
  - reflexivity.
Qed.

Lemma checkStageTransitions_healing (w : World) :
  simulationStage (sim w) = "healing" ->
  checkStageTransitions w =
  let w' := log (console_log "Checking stage transitions...") w in
  if Qgeb (healingProgress (sim w)) RESOLVED_THRESHOLD
  then transition "Healing complete, transitioning to resolved" "resolved" w'
  else (Normal, w').
Proof.
  intro H. unfold checkStageTransitions, andThen, pure. cbn [log sim].
  rewrite H. reflexivity.
Qed.

(** C8.  Inside the integration step, when the stage is healing and the
    decayed inflammation is below 10 and the decayed pus below 5, the stage
    becomes resolved in that same step; in every other case the level updates
    leave the stage as it was, so this is their only stage change.  The stage
    machine has its own healing-to-resolved check on
    healingProgress >= RESOLVED_THRESHOLD besides. *)
Theorem healing_promoted_inside_integration (dt : Q) (s : AcneSimulation) :
  let mid := before_healing dt s in
  let healingRate := healingValue s / 500 * dt in
  let s' := integrate dt s in
  (simulationStage s = "healing" ->
     currentInflammationLevel s' =
       Qmax 0 (currentInflammationLevel mid - healingRate) /\
     currentPusLevel s' = Qmax 0 (currentPusLevel mid - healingRate * 0.8) /\
     (currentInflammationLevel s' < 10 /\ currentPusLevel s' < 5 ->
      simulationStage s' = "resolved") /\
     (~ (currentInflammationLevel s' < 10 /\ currentPusLevel s' < 5) ->
      simulationStage s' = "healing")) /\
  (simulationStage s <> "healing" -> simulationStage s' = simulationStage s) /\
  simulationStage (updateDerivedRates s) = simulationStage s /\
  (forall w : World,
     simulationStage (sim w) = "healing" ->
     RESOLVED_THRESHOLD <= healingProgress (sim w) ->
     simulationStage (sim (after (checkStageTransitions w))) = "resolved").
Proof.
  intros mid healingRate s'.
  assert (Hs' : s' = update_healing dt mid) by reflexivity.
  assert (Hmid : simulationStage mid = simulationStage s)
    by apply (before_healing_stage dt s).
  assert (Hv : healingValue mid = healingValue s)
    by apply (before_healing_untouched dt s).
  clearbody s' mid. subst s'.
  split; [|split; [|split]].
  - intro H. rewrite <- Hmid in H.
    destruct (update_healing_in_healing dt mid H) as (Hi & Hp & Hs).
    rewrite Hv in Hi, Hp. fold healingRate in Hi, Hp.
    split; [exact Hi|]. split; [exact Hp|]. split.
    + intros [Li Lp]. rewrite Hs.
      apply Qltb_true in Li, Lp. rewrite Li, Lp. reflexivity.
    + intro N. rewrite Hs.
      destruct (Qltb (currentInflammationLevel (update_healing dt mid)) 10)
        eqn:Ei; [|reflexivity].
      destruct (Qltb (currentPusLevel (update_healing dt mid)) 5) eqn:Ep;
        [|reflexivity].
      exfalso. apply N. split; apply Qltb_true; assumption.
  - intro H. rewrite <- Hmid in H |- *.
    exact (update_healing_other_stage dt mid H).
  - apply updateDerivedRates_keeps.
  - intros w H L. rewrite (checkStageTransitions_healing w H). cbv zeta.
    apply Qgeb_true in L. rewrite L. reflexivity.
Qed.

Lemma healing_promoted_inside_integration_witness :
  simulationStage nearly_healed = "healing" /\
  simulationStage (integrate (1 / 60) nearly_healed) = "resolved".
Proof.
  split; [reflexivity|].
  destruct (healing_promoted_inside_integration (1 / 60) nearly_healed)
    as [H _].
  destruct (H eq_refl) as (_ & _ & P & _).
  apply P. split; vm_compute; reflexivity.
Defined.

(** ** Setting a stage by name *)

Lemma includes_In (l : list string) (x : string) :
  includes l x = true <-> In x l.
Proof.
  unfold includes. rewrite existsb_exists. split.
  - intros (y & Hy & E). apply String.eqb_eq in E. subst. exact Hy.
  - intro H. exists x. split; [exact H|apply String.eqb_refl].
Qed.

Lemma includes_not_In (l : list string) (x : string) :
  ~ In x l -> includes l x = false.
Proof.
  intro H. destruct (includes l x) eqn:E; [|reflexivity].
  apply includes_In in E. contradiction.
Qed.

Lemma setStage_invalid (stage : string) (w : World) :
  ~ In stage validStages ->
  setStage stage w =
  {| sim := sim w;
     console := console w ++ [console_log ("Setting stage to: " ++ stage);
                              console_error ("Invalid stage: " ++ stage)] |}.
Proof.
  intro H. unfold setStage. cbv zeta. rewrite (includes_not_In _ _ H).
  cbn [negb]. unfold log. fields. rewrite <- app_assoc. reflexivity.
Qed.

Lemma setStage_valid (stage : string) (w : World) :
  In stage validStages ->
  setStage stage w =
  {| sim := resetStageProgress (set_simulationStage stage (sim w));
     console := console w ++ [console_log ("Setting stage to: " ++ stage)] |}.
Proof.
  intro H. unfold setStage. cbv zeta. apply includes_In in H. rewrite H.
  cbn [negb]. reflexivity.
Qed.






(** ** Manual advance along the forward path *)

(** [entry_condition] is the guard of the stage machine: whenever the check
    changes the stage, the levels meet the guard of the stage entered. *)
Lemma checkStageTransitions_enters (w : World) :
  let w' := after (checkStageTransitions w) in
  simulationStage (sim w') <> simulationStage (sim w) ->
  entry_condition (simulationStage (sim w')) (sim w) = true.
Proof.
  destruct w as [s c]. unfold after, checkStageTransitions, andThen, pure.
  cbv zeta. fields.
  repeat match goal with
         | |- context [if (simulationStage s =? ?x)%string then _ else _] =>
             destruct (simulationStage s =? x)%string
         end;
    try (cbn [snd]; fields; intro N; exfalso; apply N; reflexivity);
    match goal with
    | |- context [if ?b then transition _ _ _ else _] => destruct b eqn:E
    end;
    rewrite ?transition_result; cbn [snd]; fields;
    try (intro N; exfalso; apply N; reflexivity);
    try (intros _; exact E).
  destruct (_ || _) eqn:E2; cbn [snd]; fields.
  - intros _. exact E2.
  - intro N; exfalso; apply N; reflexivity.
Qed.







Lemma advance_from_resolved (w : World) :
  simulationStage (sim w) = "resolved" ->
  sim (advanceToNextStage w) =
  set_healingProgress 0
    (set_currentPusLevel 0
       (set_currentNeutrophilLevel 0
          (set_currentInflammationLevel 0
             (set_currentBacteriaLevel 0
                (set_currentSebumLevel 20
                   (set_simulationStage "incubation" (sim w))))))).
Proof.
  intro H. unfold advanceToNextStage. cbv zeta. rewrite H. reflexivity.
Qed.








(** ** One tick *)

(** C3, as amended.  update discards its arguments: whatever the caller
    passes, one call advances simulationTime by the fixed tick 1/60 and
    integrates the levels over dt = 1/60. *)
Theorem update_fixed_tick (arguments arguments' : list Q) (w : World) :
  update arguments w = update arguments' w /\
  simulationTime (sim (after (update arguments w))) =
    simulationTime (sim w) + 1 / 60 /\
  Forall (fun level => level (sim (after (update arguments w))) =
                       level (ticked (sim w))) levels.
Proof.
  split; [rewrite !update_run; reflexivity|].
  destruct (written_over _ _ _ _ (update_sim arguments w)) as [Ht Hl].
  split; [|exact Hl].
  rewrite Ht. apply ticked_time.
Qed.

(** C3, as stated, fails on a fresh engine: update(1) advances simulationTime
    to 1/60 and not to 1, and leaves the same world as update(2). *)
Lemma update_dt_counterexample :
  simulationTime (sim (after (update [1] fresh))) == 1 / 60 /\
  ~ simulationTime (sim (after (update [1] fresh))) ==
      simulationTime (sim fresh) + 1 /\
  update [1] fresh = update [2] fresh.
Proof.
  split; [vm_compute; reflexivity|].
  split; [|rewrite !update_run; reflexivity].
  intro H. vm_compute in H. discriminate H.
Qed.

(** ** Calls that do not complete *)

(** A check that ends normally has fired no transition: every branch that
    assigns a stage goes on to call [this.updateStageVisuals()]. *)
Lemma checkStageTransitions_normal (w : World) :
  fst (checkStageTransitions w) = Normal ->
  simulationStage (sim (after (checkStageTransitions w))) =
  simulationStage (sim w).
Proof.
  destruct w as [s c]. unfold after, checkStageTransitions, andThen, pure.
  cbv zeta. fields.
  case_ifs; rewrite ?transition_result; cbn [fst snd]; fields;
    try reflexivity; intro H; discriminate H.
Qed.

(** C6, evaluated where it fails.  A fresh engine advanced by hand to rupture
    holds bacteria 65 and healingProgress 0; the next update fires the
    rupture-to-worsening transition, assigns the stage, and then throws
    TypeError out of update and out of the driver's loop. *)
Theorem update_throws_when_transition_fires :
  simulationStage (sim ruptured) = "rupture" /\
  fst (update [] ruptured) =
    Abrupt (TypeError "this.updateStageVisuals is not a function") /\
  simulationStage (sim (after (update [] ruptured))) = "worsening" /\
  fst (Main.simulationLoop (1 / 60) ruptured) =
    Abrupt (TypeError "this.updateStageVisuals is not a function").
Proof. vm_compute. repeat split; reflexivity. Qed.

(** C2, evaluated where it fails.  The class declares no method [reset]: the
    call made by resetSimulation throws TypeError and the engine keeps the
    state it had. *)
Theorem resetSimulation_throws (w : World) :
  has_method "reset" = false /\
  Main.resetSimulation w =
    (Abrupt (TypeError "simulation.reset is not a function"), w).
Proof. split; reflexivity. Qed.

(** C4, evaluated where it fails.  The class declares none of the eight
    setters: for every slider and every value the call made by
    handleSliderChange throws TypeError, and nothing is clamped or stored. *)
Theorem parameter_setters_throw (value : Q) (w : World) :
  Forall (fun p : string * string =>
            has_method (snd p) = false /\
            Main.handleSliderChange (fst p) value w =
              (Abrupt (TypeError ("simulation." ++ snd p ++ " is not a function")),
               w))
         Main.slider_setters.
Proof.
  unfold Main.slider_setters.
  repeat (apply Forall_cons; [split; reflexivity|]). apply Forall_nil.
Qed.

(** ** Humidity and friction *)

Lemma agree_but_hf_sliders (h f : Q) (s : AcneSimulation) :
  agree_but_hf s (set_frictionValue f (set_humidityValue h s)).
Proof. reflexivity. Qed.

Lemma agree_but_hf_observed (s1 s2 : AcneSimulation) :
  agree_but_hf s1 s2 ->
  simulationStage s1 = simulationStage s2 /\
  simulationTime s1 = simulationTime s2 /\
  Forall (fun level : AcneSimulation -> Q => level s1 = level s2) levels.
Proof.
  intro H. destruct s1, s2. split_agreement H.
  split; [reflexivity|]. split; [reflexivity|].
  unfold levels. repeat (apply Forall_cons; [reflexivity|]).
  apply Forall_nil.
Qed.

Lemma set_simulationTime_agree (s1 s2 : AcneSimulation) :
  agree_but_hf s1 s2 ->
  agree_but_hf (set_simulationTime (simulationTime s1 + 1 / 60) s1)
               (set_simulationTime (simulationTime s2 + 1 / 60) s2).
Proof.
  intro H. destruct s1, s2. split_agreement H. reflexivity.
Qed.

Lemma updateDerivedRates_agree (s1 s2 : AcneSimulation) :
  agree_but_hf s1 s2 ->
  agree_but_hf (updateDerivedRates s1) (updateDerivedRates s2).
Proof.
  intro H. destruct s1, s2. split_agreement H.
  unfold agree_but_hf, updateDerivedRates. cbv zeta. fields.
  case_ifs; reflexivity.
Qed.

Lemma update_sebum_agree (dt : Q) (s1 s2 : AcneSimulation) :
  agree_but_hf s1 s2 ->
  agree_but_hf (update_sebum dt s1) (update_sebum dt s2).
Proof.
  intro H. destruct s1, s2. split_agreement H. reflexivity.
Qed.

Lemma update_bacteria_agree (dt : Q) (s1 s2 : AcneSimulation) :
  agree_but_hf s1 s2 ->
  agree_but_hf (update_bacteria dt s1) (update_bacteria dt s2).
Proof.
  intro H. destruct s1, s2. split_agreement H.
  unfold agree_but_hf, update_bacteria. cbv zeta. fields.
  case_ifs; reflexivity.
Qed.

Lemma update_inflammation_agree (dt : Q) (s1 s2 : AcneSimulation) :
  agree_but_hf s1 s2 ->
  agree_but_hf (update_inflammation dt s1) (update_inflammation dt s2).
Proof.
  intro H. destruct s1, s2. split_agreement H.
  unfold agree_but_hf, update_inflammation. cbv zeta. fields.
  case_ifs; reflexivity.
Qed.

Lemma update_pus_agree (dt : Q) (s1 s2 : AcneSimulation) :
  agree_but_hf s1 s2 ->
  agree_but_hf (update_pus dt s1) (update_pus dt s2).
Proof.
  intro H. destruct s1, s2. split_agreement H.
  unfold agree_but_hf, update_pus. cbv zeta. fields.
  case_ifs; reflexivity.
Qed.

Lemma update_healing_agree (dt : Q) (s1 s2 : AcneSimulation) :
  agree_but_hf s1 s2 ->
  agree_but_hf (update_healing dt s1) (update_healing dt s2).
Proof.
  intro H. destruct s1, s2. split_agreement H.
  unfold agree_but_hf, update_healing. cbv zeta. fields.
  case_ifs; reflexivity.
Qed.

Lemma integrate_agree (dt : Q) (s1 s2 : AcneSimulation) :
  agree_but_hf s1 s2 ->
  agree_but_hf (integrate dt s1) (integrate dt s2).
Proof.
  intro H.
  apply update_healing_agree, update_pus_agree, update_inflammation_agree,
    update_bacteria_agree, update_sebum_agree, H.
Qed.

Lemma log_state_periodically_agree (w1 w2 : World) :
  worlds_agree_but_hf w1 w2 ->
  worlds_agree_but_hf (log_state_periodically w1) (log_state_periodically w2).
Proof.
  destruct w1 as [s1 c1], w2 as [s2 c2]. intros [H C].
  cbn [sim console] in H, C. subst c2.
  destruct s1, s2. split_agreement H.
  unfold worlds_agree_but_hf, agree_but_hf, log_state_periodically.
  cbv zeta. fields.
  case_ifs; split; reflexivity.
Qed.

Lemma updateParameters_agree (w1 w2 : World) :
  worlds_agree_but_hf w1 w2 ->
  worlds_agree_but_hf (updateParameters w1) (updateParameters w2).
Proof.
  intros [H C].
  apply log_state_periodically_agree. split; [|exact C].
  cbn [sim on_sim].
  apply integrate_agree, updateDerivedRates_agree, set_simulationTime_agree, H.
Qed.

Lemma checkStageTransitions_agree (w1 w2 : World) :
  worlds_agree_but_hf w1 w2 ->
  fst (checkStageTransitions w1) = fst (checkStageTransitions w2) /\
  worlds_agree_but_hf (after (checkStageTransitions w1))
                      (after (checkStageTransitions w2)).
Proof.
  destruct w1 as [s1 c1], w2 as [s2 c2]. intros [H C].
  cbn [sim console] in H, C. subst c2.
  destruct s1, s2. split_agreement H.
  unfold worlds_agree_but_hf, agree_but_hf, after, checkStageTransitions,
    andThen, pure.
  cbv zeta. fields.
  case_ifs; rewrite ?transition_result; cbn [fst snd]; fields;
    repeat split; reflexivity.
Qed.

(** C10.  Two engines that differ only in the humidity and friction values
    leave update with the same stage, simulationTime, biological levels and
    healingProgress, the same console output and the same completion: the
    two derived values humidityEffect and baselineInflammation are written
    every tick and read by nothing. *)
Theorem humidity_and_friction_have_no_effect
    (arguments : list Q) (w1 w2 : World) :
  worlds_agree_but_hf w1 w2 ->
  let r1 := update arguments w1 in
  let r2 := update arguments w2 in
  fst r1 = fst r2 /\
  console (after r1) = console (after r2) /\
  simulationStage (sim (after r1)) = simulationStage (sim (after r2)) /\
  simulationTime (sim (after r1)) = simulationTime (sim (after r2)) /\
  Forall (fun level : AcneSimulation -> Q =>
            level (sim (after r1)) = level (sim (after r2))) levels.
Proof.
  intros H r1 r2. subst r1 r2. rewrite !update_run.
  apply updateParameters_agree in H.
  destruct (checkStageTransitions_agree _ _ H) as [Hc [Hs Hl]].
  split; [exact Hc|]. split; [exact Hl|].
  exact (agree_but_hf_observed _ _ Hs).
Qed.

Lemma humidity_and_friction_have_no_effect_witness :
  let damp :=
    on_sim (fun s => set_frictionValue 900 (set_humidityValue 1000 s)) ruptured in
  humidityValue (sim damp) = 1000 /\
  frictionValue (sim damp) = 900 /\
  humidityValue (sim ruptured) = 500 /\
  frictionValue (sim ruptured) = 0 /\
  simulationStage (sim (after (update [] ruptured))) =
    simulationStage (sim (after (update [] damp))) /\
  Forall (fun level : AcneSimulation -> Q =>
            level (sim (after (update [] ruptured))) =
            level (sim (after (update [] damp)))) levels.
Proof.
  intro damp.
  assert (A : worlds_agree_but_hf ruptured damp) by (split; reflexivity).
  do 4 (split; [reflexivity|]).
  destruct (humidity_and_friction_have_no_effect [] ruptured damp A)
    as (_ & _ & Hs & _ & Hl).
  split; [exact Hs | exact Hl].
Defined.

(** ** Ranges of the levels *)

Section Ranges.

Variable dt : Q.
Hypothesis dt_nonneg : 0 <= dt.

Lemma update_sebum_integrable (s : AcneSimulation) :
  integrable s -> integrable (update_sebum dt s).
Proof.
  intro H. destruct s. open_integrable H.
  unfold update_sebum. cbv zeta. close_integrable.
  apply clamp_add; [assumption|].
  repeat apply Qmult_le_0_compat; try assumption; qlinear.
Qed.

Lemma update_bacteria_integrable (s : AcneSimulation) :
  integrable s -> integrable (update_bacteria dt s).
Proof.
  intro H. destruct s. open_integrable H.
  unfold update_bacteria. cbv zeta. fields.
  case_ifs; close_integrable;
    repeat first [ apply clamp_sub | apply clamp_add ]; try assumption;
    repeat apply Qmult_le_0_compat; try assumption; qlinear.
Qed.

Lemma update_inflammation_integrable (s : AcneSimulation) :
  integrable s -> integrable (update_inflammation dt s).
Proof.
  intro H. destruct s. open_integrable H.
  unfold update_inflammation. cbv zeta. fields.
  case_ifs; close_integrable;
    apply clamp_add; try assumption;
    repeat first [ apply excess_nonneg | apply Qmult_le_0_compat ];
    try assumption; qlinear.
Qed.

Lemma update_pus_integrable (s : AcneSimulation) :
  integrable s -> integrable (update_pus dt s).
Proof.
  intro H. destruct s. open_integrable H.
  unfold update_pus. cbv zeta. fields.
  case_ifs; close_integrable;
    apply clamp_add; try assumption;
    repeat apply Qmult_le_0_compat; try assumption; qlinear.
Qed.

Lemma update_healing_integrable (s : AcneSimulation) :
  integrable s -> integrable (update_healing dt s).
Proof.
  intro H. destruct s. open_integrable H.
  unfold update_healing. cbv zeta. fields.
  case_ifs; close_integrable;
    first [ apply clamp_sub | apply clamp_add_r ]; try assumption;
    repeat apply Qmult_le_0_compat; try assumption; qlinear.
Qed.

Lemma integrate_integrable (s : AcneSimulation) :
  integrable s -> integrable (integrate dt s).
Proof.
  intro H.
  apply update_healing_integrable, update_pus_integrable,
    update_inflammation_integrable, update_bacteria_integrable,
    update_sebum_integrable, H.
Qed.

End Ranges.

(** With the temperature and medication sliders on their scale both derived
    rates are not negative, and the medication level moves one hundredth of
    the way to the medication slider. *)
Lemma updateDerivedRates_integrable (s : AcneSimulation) :
  parameters_in_range s ->
  levels_in_range s ->
  0 <= progressionAccelerator s ->
  integrable (updateDerivedRates s) /\
  currentMedicationLevel (updateDerivedRates s) =
    currentMedicationLevel s * 0.99 + medicationValue s * 0.01.
Proof.
  intros P L A. destruct s.
  unfold parameters_in_range in P. unfold levels_in_range in L.
  fields_in P. fields_in L. fields_in A.
  destruct P as (? & ? & ? & ? & ? & ? & ? & ?).
  destruct L as (? & ? & ? & ? & ? & ?).
  unfold updateDerivedRates. cbv zeta. fields.
  case_ifs; (split; [|reflexivity]); close_integrable;
    repeat apply Qmult_le_0_compat; try assumption; qlinear.
Qed.

(** One tick of the level updates, from any engine in range. *)
Lemma ticked_in_range (s : AcneSimulation) :
  parameters_in_range s ->
  levels_in_range s ->
  0 <= progressionAccelerator s ->
  levels_in_range (ticked s) /\
  currentMedicationLevel (ticked s) =
    currentMedicationLevel s * 0.99 + medicationValue s * 0.01.
Proof.
  intros P L A.
  rewrite ticked_eq.
  destruct (updateDerivedRates_integrable
              (set_simulationTime (simulationTime s + 1 / 60) s))
    as [I M].
  - apply set_simulationTime_ranges, P.
  - apply set_simulationTime_ranges, L.
  - exact A.
  - split.
    + apply (integrate_integrable _ tick_nonneg _ I).
    + rewrite (proj2 (proj2 (integrate_untouched _ _))). exact M.
Qed.

Lemma medication_step_in_range (level slider : Q) :
  between 0 1000 level -> between 0 1000 slider ->
  between 0 1000 (level * 0.99 + slider * 0.01).
Proof. intros [? ?] [? ?]. split; lra. Qed.

(** Whatever value it is given, [setProgressionAccelerator] stores an
    accelerator within 0.1-10. *)
Lemma setProgressionAccelerator_range (value : Q) (w : World) :
  between 0.1 10 (progressionAccelerator (sim (setProgressionAccelerator value w))).
Proof.
  unfold setProgressionAccelerator. cbv zeta. unfold log, on_sim. fields.
  split.
  - apply Q.le_max_l.
  - apply Q.max_lub; [lra|].
    apply Qle_trans with 10.0; [apply Q.le_min_l | lra].
Qed.

(** C1, as amended.  From an engine whose control parameters lie in
    [0,1000], whose accelerator lies in its range [0.1,10] and whose sebum,
    bacteria, inflammation, neutrophil and pus levels and healingProgress lie
    in [0,100], a call of update leaves those five levels and healingProgress
    in [0,100].  The medication level is not clamped: the call sets it to
    0.99 times its value plus 0.01 times the medication slider, which keeps
    it in [0,1000] when it started there. *)
Theorem update_keeps_levels_in_range (arguments : list Q) (w : World) :
  parameters_in_range (sim w) ->
  between 0.1 10 (progressionAccelerator (sim w)) ->
  levels_in_range (sim w) ->
  between 0 1000 (currentMedicationLevel (sim w)) ->
  let s' := sim (after (update arguments w)) in
  levels_in_range s' /\
  currentMedicationLevel s' =
    currentMedicationLevel (sim w) * 0.99 + medicationValue (sim w) * 0.01 /\
  between 0 1000 (currentMedicationLevel s').
Proof.
  intros P A L M s'. subst s'.
  assert (A0 : 0 <= progressionAccelerator (sim w))
    by (destruct A as [A _]; lra).
  destruct (ticked_in_range (sim w) P L A0) as [L' M'].
  rewrite update_sim.
  destruct (written_over_ranges (ticked (sim w))
              (simulationStage (sim (after (update arguments w))))
              (lastLogTime (sim (updateParameters w))) L') as [L'' M''].
  split; [exact L''|].
  rewrite M'', M'. split; [reflexivity|].
  apply medication_step_in_range; [exact M|].
  destruct P as (_ & _ & Pm & _). exact Pm.
Qed.

Lemma update_keeps_levels_in_range_witness :
  levels_in_range (sim (after (update [] ruptured))) /\
  between 0 1000 (currentMedicationLevel (sim (after (update [] ruptured)))).
Proof.
  assert (P : parameters_in_range (sim ruptured)) by closed_ranges.
  assert (A : between 0.1 10 (progressionAccelerator (sim ruptured)))
    by closed_ranges.
  assert (L : levels_in_range (sim ruptured)) by closed_ranges.
  assert (M : between 0 1000 (currentMedicationLevel (sim ruptured)))
    by closed_ranges.
  destruct (update_keeps_levels_in_range [] ruptured P A L M) as (R & _ & B).
  split; [exact R | exact B].
Defined.

(** C1, as stated, fails for the medication level.  After ten ticks with
    the medication slider at 1000 every level, the medication level included
    (about 95.6), is within [0,100] and every parameter within [0,1000]; the
    eleventh update takes the medication level to about 104.7. *)
Lemma medication_level_counterexample :
  parameters_in_range (sim (medicated_after 10)) /\
  levels_in_range (sim (medicated_after 10)) /\
  between 0 100 (currentMedicationLevel (sim (medicated_after 10))) /\
  ~ currentMedicationLevel (sim (after (update [] (medicated_after 10)))) <= 100.
Proof.
  split; [closed_ranges|]. split; [closed_ranges|]. split; [closed_ranges|].
  intro H. apply Qle_bool_iff in H. vm_compute in H. discriminate H.
Qed.

(** * Further properties of the engine *)
(** ** Ticks in a quiet stage *)

(** Reading the engine under a write of [lastLogTime]. *)
Lemma logged_over (s s' : AcneSimulation) (logged : option Z) :
  s' = set_lastLogTime logged s ->
  simulationStage s' = simulationStage s /\
  simulationTime s' = simulationTime s /\
  Forall (fun level : AcneSimulation -> Q => level s' = level s) levels /\
  same_settings s s'.
Proof.
  intro E. subst s'. split; [reflexivity|]. split; [reflexivity|].
  split; [|split; reflexivity].
  unfold levels. repeat (apply Forall_cons; [reflexivity|]).
  apply Forall_nil.
Qed.

Lemma levels_equal (s s' : AcneSimulation) :
  Forall (fun level : AcneSimulation -> Q => level s' = level s) levels ->
  currentSebumLevel s' = currentSebumLevel s /\
  currentBacteriaLevel s' = currentBacteriaLevel s /\
  currentInflammationLevel s' = currentInflammationLevel s /\
  currentNeutrophilLevel s' = currentNeutrophilLevel s /\
  currentPusLevel s' = currentPusLevel s /\
  currentMedicationLevel s' = currentMedicationLevel s /\
  healingProgress s' = healingProgress s.
Proof.
  unfold levels. intro F.
  repeat match goal with
         | H : Forall _ (_ :: _) |- _ => inversion H; subst; clear H
         end.
  repeat split; assumption.
Qed.

(** Blocks whose test fails return the engine as they got it. *)
Lemma update_bacteria_in_incubation (dt : Q) (s : AcneSimulation) :
  simulationStage s = "incubation" -> update_bacteria dt s = s.
Proof. intro H. unfold update_bacteria. rewrite H. reflexivity. Qed.

Lemma update_inflammation_off (dt : Q) (s : AcneSimulation) :
  currentBacteriaLevel s <= BACTERIA_THRESHOLD ->
  simulationStage s <> "comedone" -> simulationStage s <> "papule" ->
  update_inflammation dt s = s.
Proof.
  intros B C P. unfold update_inflammation.
  apply Qgtb_false in B. rewrite B.
  apply String.eqb_neq in C, P. rewrite C, P. reflexivity.
Qed.

Lemma update_pus_off (dt : Q) (s : AcneSimulation) :
  simulationStage s <> "papule" -> simulationStage s <> "pustule" ->
  update_pus dt s = s.
Proof.
  intros P U. unfold update_pus.
  apply String.eqb_neq in P, U. rewrite P, U, andb_false_r. reflexivity.
Qed.

Lemma update_healing_off (dt : Q) (s : AcneSimulation) :
  simulationStage s <> "healing" -> simulationStage s <> "resolved" ->
  update_healing dt s = s.
Proof.
  intros H R. unfold update_healing.
  apply String.eqb_neq in H, R. rewrite H, R. reflexivity.
Qed.

(** In incubation with bacteria at or below the threshold the level updates
    write the sebum level only. *)
Lemma integrate_in_incubation (dt : Q) (s : AcneSimulation) :
  simulationStage s = "incubation" ->
  currentBacteriaLevel s <= BACTERIA_THRESHOLD ->
  integrate dt s = update_sebum dt s.
Proof.
  intros H B. unfold integrate.
  assert (H' : simulationStage (update_sebum dt s) = "incubation") by exact H.
  assert (B' : currentBacteriaLevel (update_sebum dt s) <= BACTERIA_THRESHOLD)
    by exact B.
  rewrite (update_bacteria_in_incubation dt _ H').
  rewrite (update_inflammation_off dt _ B');
    [|rewrite H'; discriminate|rewrite H'; discriminate].
  rewrite (update_pus_off dt _);
    [|rewrite H'; discriminate|rewrite H'; discriminate].
  apply update_healing_off; rewrite H'; discriminate.
Qed.

Lemma quiet_refl (s : AcneSimulation) : quiet s s.
Proof. repeat split. Qed.

Lemma quiet_trans (s1 s2 s3 : AcneSimulation) :
  quiet s1 s2 -> quiet s2 s3 -> quiet s1 s3.
Proof.
  intros (A1 & B1 & C1 & D1 & E1 & F1) (A2 & B2 & C2 & D2 & E2 & F2).
  repeat split; congruence.
Qed.

Lemma set_simulationTime_quiet (t : Q) (s : AcneSimulation) :
  quiet s (set_simulationTime t s).
Proof. repeat split. Qed.

Lemma set_lastLogTime_quiet (logged : option Z) (s : AcneSimulation) :
  quiet s (set_lastLogTime logged s).
Proof. repeat split. Qed.

Lemma update_sebum_quiet (dt : Q) (s : AcneSimulation) :
  quiet s (update_sebum dt s).
Proof. repeat split. Qed.

Lemma updateDerivedRates_quiet (s : AcneSimulation) :
  quiet s (updateDerivedRates s).
Proof.
  unfold updateDerivedRates. cbv zeta. case_ifs; repeat split.
Qed.

Lemma ticked_quiet_in_incubation (s : AcneSimulation) :
  simulationStage s = "incubation" ->
  currentBacteriaLevel s <= BACTERIA_THRESHOLD ->
  quiet s (ticked s).
Proof.
  intros H B. rewrite ticked_eq.
  assert (Q1 : quiet s
                 (updateDerivedRates
                    (set_simulationTime (simulationTime s + 1 / 60) s))).
  { eapply quiet_trans; [apply set_simulationTime_quiet|].
    apply updateDerivedRates_quiet. }
  rewrite integrate_in_incubation.
  - eapply quiet_trans; [exact Q1|]. apply update_sebum_quiet.
  - destruct Q1 as (S1 & _). rewrite S1. exact H.
  - destruct Q1 as (_ & B1 & _). rewrite B1. exact B.
Qed.

(** In incubation the check fires on bacteria above 60 and inflammation
    above 40 together; at or below 60 bacteria it only logs. *)
Lemma checkStageTransitions_incubation_idle (w : World) :
  simulationStage (sim w) = "incubation" ->
  currentBacteriaLevel (sim w) <= BACTERIA_THRESHOLD ->
  fst (checkStageTransitions w) = Normal /\
  sim (after (checkStageTransitions w)) = sim w.
Proof.
  intros H B. apply Qgtb_false in B.
  unfold checkStageTransitions, andThen, pure. cbn [log sim].
  rewrite H, B. split; reflexivity.
Qed.

Lemma update_quiet_in_incubation (arguments : list Q) (w : World) :
  simulationStage (sim w) = "incubation" ->
  currentBacteriaLevel (sim w) <= BACTERIA_THRESHOLD ->
  fst (update arguments w) = Normal /\
  quiet (sim w) (sim (after (update arguments w))).
Proof.
  intros H B.
  assert (Q1 : quiet (sim w) (sim (updateParameters w))).
  { rewrite updateParameters_sim.
    eapply quiet_trans; [apply (ticked_quiet_in_incubation _ H B)|].
    apply set_lastLogTime_quiet. }
  rewrite update_run.
  destruct (checkStageTransitions_incubation_idle (updateParameters w))
    as [N E].
  - destruct Q1 as (S1 & _). rewrite S1. exact H.
  - destruct Q1 as (_ & B1 & _). rewrite B1. exact B.
  - split; [exact N|]. rewrite E. exact Q1.
Qed.

Lemma after_ticks_succ (n : nat) (w : World) :
  after_ticks (S n) w = after (update [] (after_ticks n w)).
Proof. reflexivity. Qed.

(** X1.  An engine in stage incubation whose bacteria level is at most 60
    never leaves incubation by ticking: bacteria are not grown in that stage,
    so after any number of updates the stage, the bacteria, inflammation,
    neutrophil and pus levels and healingProgress are what they were, and
    the next update completes normally. *)
Theorem incubation_is_never_left (n : nat) (w : World) :
  simulationStage (sim w) = "incubation" ->
  currentBacteriaLevel (sim w) <= BACTERIA_THRESHOLD ->
  quiet (sim w) (sim (after_ticks n w)) /\
  fst (update [] (after_ticks n w)) = Normal.
Proof.
  intros H B.
  assert (Q1 : quiet (sim w) (sim (after_ticks n w))).
  { induction n as [|n IH]; [apply quiet_refl|].
    rewrite after_ticks_succ.
    eapply quiet_trans; [exact IH|].
    apply update_quiet_in_incubation.
    - destruct IH as (S1 & _). rewrite S1. exact H.
    - destruct IH as (_ & B1 & _). rewrite B1. exact B. }
  split; [exact Q1|].
  apply update_quiet_in_incubation.
  - destruct Q1 as (S1 & _). rewrite S1. exact H.
  - destruct Q1 as (_ & B1 & _). rewrite B1. exact B.
Qed.

Lemma incubation_is_never_left_witness :
  simulationStage (sim (after_ticks 100 fresh)) = "incubation" /\
  currentBacteriaLevel (sim (after_ticks 100 fresh)) = 0 /\
  fst (update [] (after_ticks 100 fresh)) = Normal.
Proof.
  assert (B : currentBacteriaLevel (sim fresh) <= BACTERIA_THRESHOLD)
    by (apply Qle_bool_imp_le; vm_compute; reflexivity).
  destruct (incubation_is_never_left 100 fresh eq_refl B)
    as ((S1 & B1 & _) & N).
  split; [exact S1|]. split; [exact B1 | exact N].
Defined.

(** ** Stages that ticking does not leave *)

Lemma integrate_eq (dt : Q) (s : AcneSimulation) :
  integrate dt s = update_healing dt (before_healing dt s).
Proof. reflexivity. Qed.

(** Outside stage healing a tick leaves the stage to the stage machine. *)
Lemma ticked_stage (s : AcneSimulation) :
  simulationStage s <> "healing" ->
  simulationStage (ticked s) = simulationStage s.
Proof.
  intro H. rewrite ticked_eq, integrate_eq.
  assert (E : simulationStage
                (before_healing (1 / 60)
                   (updateDerivedRates
                      (set_simulationTime (simulationTime s + 1 / 60) s))) =
              simulationStage s).
  { rewrite before_healing_stage.
    rewrite (proj1 (updateDerivedRates_keeps _)). reflexivity. }
  rewrite update_healing_other_stage; [exact E|].
  rewrite E. exact H.
Qed.

Lemma updateParameters_stage (w : World) :
  simulationStage (sim w) <> "healing" ->
  simulationStage (sim (updateParameters w)) = simulationStage (sim w).
Proof.
  intro H.
  destruct (logged_over _ _ _ (updateParameters_sim w)) as (S1 & _).
  rewrite S1. apply ticked_stage, H.
Qed.

(** In worsening and in resolved the check only logs. *)
Lemma checkStageTransitions_terminal (w : World) :
  simulationStage (sim w) = "worsening" \/
  simulationStage (sim w) = "resolved" ->
  fst (checkStageTransitions w) = Normal /\
  sim (after (checkStageTransitions w)) = sim w.
Proof.
  intros [H|H]; unfold checkStageTransitions, andThen, pure;
    cbn [log sim]; rewrite H; split; reflexivity.
Qed.

Lemma update_in_terminal_stage (arguments : list Q) (w : World) :
  simulationStage (sim w) = "worsening" \/
  simulationStage (sim w) = "resolved" ->
  fst (update arguments w) = Normal /\
  simulationStage (sim (after (update arguments w))) = simulationStage (sim w).
Proof.
  intro H.
  assert (N : simulationStage (sim w) <> "healing")
    by (destruct H as [H|H]; rewrite H; discriminate).
  assert (S1 := updateParameters_stage w N).
  rewrite update_run.
  destruct (checkStageTransitions_terminal (updateParameters w)) as [C E].
  - rewrite S1. exact H.
  - split; [exact C|]. rewrite E. exact S1.
Qed.

(** X2.  Stage resolved is terminal for the tick: however many updates run,
    the stage stays resolved and each update completes normally.  By hand
    the two advance operations differ there: advanceToNextStage wraps to
    incubation, skipToNextStage stays in resolved. *)
Theorem resolved_is_left_only_by_hand (n : nat) (w : World) :
  simulationStage (sim w) = "resolved" ->
  simulationStage (sim (after_ticks n w)) = "resolved" /\
  fst (update [] (after_ticks n w)) = Normal /\
  simulationStage (sim (advanceToNextStage w)) = "incubation" /\
  simulationStage (sim (skipToNextStage w)) = "resolved".
Proof.
  intro H.
  assert (S1 : simulationStage (sim (after_ticks n w)) = "resolved").
  { induction n as [|n IH]; [exact H|].
    rewrite after_ticks_succ.
    rewrite (proj2 (update_in_terminal_stage [] _ (or_intror IH))).
    exact IH. }
  split; [exact S1|]. split.
  - apply update_in_terminal_stage. right. exact S1.
  - split.
    + rewrite (advance_from_resolved w H). reflexivity.
    + unfold skipToNextStage, on_sim. cbn [sim]. rewrite H.
      cbn [String.eqb Ascii.eqb Bool.eqb]. exact H.
Qed.

Lemma resolved_is_left_only_by_hand_witness :
  simulationStage (sim (after_ticks 50 (setStage "resolved" fresh))) =
    "resolved" /\
  fst (update [] (after_ticks 50 (setStage "resolved" fresh))) = Normal.
Proof.
  destruct (resolved_is_left_only_by_hand 50 (setStage "resolved" fresh)
              eq_refl) as (S1 & N & _).
  split; [exact S1 | exact N].
Defined.

Lemma perform_in_worsening (op : Operation) (w : World) :
  simulationStage (sim w) = "worsening" ->
  (forall stage : string, op <> op_setStage stage) ->
  simulationStage (sim (perform op w)) = "worsening".
Proof.
  intros H N. destruct op as [| | |stage|value]; cbn [perform].
  - rewrite (proj2 (update_in_terminal_stage [] w (or_introl H))). exact H.
  - unfold advanceToNextStage. cbv zeta. rewrite H. exact H.
  - unfold skipToNextStage, on_sim. cbn [sim]. rewrite H.
    cbn [String.eqb Ascii.eqb Bool.eqb]. exact H.
  - exfalso. exact (N stage eq_refl).
  - exact H.
Qed.

(** X3.  Stage worsening is left by setStage only: no sequence of updates,
    advanceToNextStage, skipToNextStage and setProgressionAccelerator calls
    changes the stage of an engine in worsening, and every update made in
    that stage completes normally. *)
Theorem worsening_is_left_only_by_setStage (ops : list Operation) (w : World) :
  simulationStage (sim w) = "worsening" ->
  Forall (fun op => forall stage : string, op <> op_setStage stage) ops ->
  simulationStage (sim (perform_all ops w)) = "worsening" /\
  fst (update [] (perform_all ops w)) = Normal.
Proof.
  intros H F.
  assert (S1 : simulationStage (sim (perform_all ops w)) = "worsening").
  { revert w H. induction F as [|op ops N F IH]; intros w H; [exact H|].
    cbn [perform_all fold_left]. apply IH.
    apply perform_in_worsening; assumption. }
  split; [exact S1|].
  apply update_in_terminal_stage. left. exact S1.
Qed.

Lemma worsening_is_left_only_by_setStage_witness :
  let w := setStage "worsening" fresh in
  let ops := [ op_update; op_advanceToNextStage; op_skipToNextStage;
               op_setProgressionAccelerator 5; op_update ] in
  simulationStage (sim w) = "worsening" /\
  simulationStage (sim (perform_all ops w)) = "worsening" /\
  fst (update [] (perform_all ops w)) = Normal.
Proof.
  intros w ops. split; [reflexivity|].
  apply (worsening_is_left_only_by_setStage ops w eq_refl).
  unfold ops. repeat (apply Forall_cons; [intro stage; discriminate|]).
  apply Forall_nil.
Defined.

(** ** One check of the stage machine *)

(** X4.  A check of the stage machine ends in one of two ways.  Either it
    returns normally and the engine is untouched; or it has assigned a
    stage, which is then one move of the stage table away from the old one
    (never two) and whose guard the levels met, and the call ends in the
    TypeError of the undeclared [updateStageVisuals]. *)
Theorem checkStageTransitions_moves_once (w : World) :
  let r := checkStageTransitions w in
  (fst r = Normal /\ sim (after r) = sim w) \/
  (fst r = Abrupt (TypeError "this.updateStageVisuals is not a function") /\
   In (simulationStage (sim w), simulationStage (sim (after r))) stage_moves /\
   entry_condition (simulationStage (sim (after r))) (sim w) = true /\
   sim (after r) = set_simulationStage (simulationStage (sim (after r))) (sim w)).
Proof.
  destruct w as [s c]. unfold after, checkStageTransitions, andThen, pure.
  cbv zeta. fields.
  repeat match goal with
         | |- context [if (simulationStage s =? ?x)%string then _ else _] =>
             let E := fresh "E" in
             destruct (simulationStage s =? x)%string eqn:E;
             [apply String.eqb_eq in E|clear E]
         end;
    try (left; split; reflexivity);
    repeat match goal with
           | |- context [if ?b then _ else _] =>
               let G := fresh "G" in destruct b eqn:G
           end;
    try (left; split; reflexivity);
    right; rewrite ?transition_result; cbn [fst snd]; fields;
    (split; [reflexivity|]);
    (split; [rewrite E; cbn; tauto|]);
    (split; [|reflexivity]);
    unfold entry_condition; cbn [String.eqb Ascii.eqb Bool.eqb];
    assumption.
Qed.

(** ** What no operation writes *)

Lemma same_settings_refl (s : AcneSimulation) : same_settings s s.
Proof. split; reflexivity. Qed.

Lemma same_settings_trans (s1 s2 s3 : AcneSimulation) :
  same_settings s1 s2 -> same_settings s2 s3 -> same_settings s1 s3.
Proof. intros [A1 B1] [A2 B2]. split; congruence. Qed.

Lemma updateDerivedRates_settings (s : AcneSimulation) :
  same_settings s (updateDerivedRates s).
Proof.
  unfold updateDerivedRates. cbv zeta. case_ifs; split; reflexivity.
Qed.

Section BlockSettings.

Variable dt : Q.

Lemma update_sebum_settings (s : AcneSimulation) :
  same_settings s (update_sebum dt s).
Proof. split; reflexivity. Qed.

Lemma update_bacteria_settings (s : AcneSimulation) :
  same_settings s (update_bacteria dt s).
Proof.
  unfold update_bacteria. cbv zeta. case_ifs; split; reflexivity.
Qed.

Lemma update_inflammation_settings (s : AcneSimulation) :
  same_settings s (update_inflammation dt s).
Proof.
  unfold update_inflammation. cbv zeta. case_ifs; split; reflexivity.
Qed.

Lemma update_pus_settings (s : AcneSimulation) :
  same_settings s (update_pus dt s).
Proof.
  unfold update_pus. case_ifs; split; reflexivity.
Qed.

Lemma update_healing_settings (s : AcneSimulation) :
  same_settings s (update_healing dt s).
Proof.
  unfold update_healing. cbv zeta. case_ifs; split; reflexivity.
Qed.

Lemma integrate_settings (s : AcneSimulation) :
  same_settings s (integrate dt s).
Proof.
  unfold integrate.
  eapply same_settings_trans; [apply update_sebum_settings|].
  eapply same_settings_trans; [apply update_bacteria_settings|].
  eapply same_settings_trans; [apply update_inflammation_settings|].
  eapply same_settings_trans; [apply update_pus_settings|].
  apply update_healing_settings.
Qed.

End BlockSettings.

Lemma ticked_settings (s : AcneSimulation) : same_settings s (ticked s).
Proof.
  rewrite ticked_eq.
  eapply same_settings_trans; [|apply integrate_settings].
  eapply same_settings_trans; [|apply updateDerivedRates_settings].
  split; reflexivity.
Qed.

Lemma written_over_settings (s : AcneSimulation) (stage : string)
    (logged : option Z) :
  same_settings s (set_simulationStage stage (set_lastLogTime logged s)).
Proof. split; reflexivity. Qed.

Lemma update_settings (arguments : list Q) (w : World) :
  same_settings (sim w) (sim (after (update arguments w))).
Proof.
  rewrite update_sim.
  eapply same_settings_trans; [apply ticked_settings|].
  apply written_over_settings.
Qed.

Lemma advanceToNextStage_settings (w : World) :
  same_settings (sim w) (sim (advanceToNextStage w)).
Proof.
  unfold advanceToNextStage. cbv zeta. case_ifs; split; reflexivity.
Qed.

Lemma skipToNextStage_settings (w : World) :
  same_settings (sim w) (sim (skipToNextStage w)).
Proof.
  unfold skipToNextStage, on_sim. cbn [sim]. cbv zeta.
  case_ifs; split; reflexivity.
Qed.

Lemma resetStageProgress_settings (s : AcneSimulation) :
  same_settings s (resetStageProgress s).
Proof.
  unfold resetStageProgress. cbv zeta. case_ifs; split; reflexivity.
Qed.

Lemma setStage_settings (stage : string) (w : World) :
  same_settings (sim w) (sim (setStage stage w)).
Proof.
  unfold setStage, updateProgressBar. cbv zeta.
  destruct (negb (includes validStages stage)).
  - split; reflexivity.
  - cbn [sim on_sim log].
    eapply same_settings_trans; [|apply resetStageProgress_settings].
    split; reflexivity.
Qed.

Lemma perform_parameters (op : Operation) (w : World) :
  parameters (sim (perform op w)) = parameters (sim w) /\
  ((forall value : Q, op <> op_setProgressionAccelerator value) ->
   progressionAccelerator (sim (perform op w)) =
   progressionAccelerator (sim w)).
Proof.
  destruct op as [| | |stage|value]; cbn [perform].
  - destruct (update_settings [] w) as [P A]. split; [exact P|intros _; exact A].
  - destruct (advanceToNextStage_settings w) as [P A].
    split; [exact P|intros _; exact A].
  - destruct (skipToNextStage_settings w) as [P A].
    split; [exact P|intros _; exact A].
  - destruct (setStage_settings stage w) as [P A].
    split; [exact P|intros _; exact A].
  - split; [reflexivity|]. intro N. exfalso. exact (N value eq_refl).
Qed.

(** X5.  No operation of the engine writes a control parameter or the time
    scale: after any sequence of updates, advanceToNextStage,
    skipToNextStage, setStage and setProgressionAccelerator calls the eight
    parameters and timeScale are what they were, and so is the accelerator
    when the sequence has no setProgressionAccelerator. *)
Theorem operations_never_write_parameters (ops : list Operation) (w : World) :
  parameters (sim (perform_all ops w)) = parameters (sim w) /\
  (Forall (fun op => forall value : Q, op <> op_setProgressionAccelerator value)
          ops ->
   progressionAccelerator (sim (perform_all ops w)) =
   progressionAccelerator (sim w)).
Proof.
  revert w. induction ops as [|op ops IH]; intro w.
  - split; [reflexivity|]. intros _. reflexivity.
  - cbn [perform_all fold_left].
    destruct (IH (perform op w)) as [P A].
    destruct (perform_parameters op w) as [P1 A1].
    split.
    + rewrite <- P1. exact P.
    + intro F. inversion F as [|? ? N F']. subst.
      rewrite <- (A1 N). exact (A F').
Qed.

Lemma operations_never_write_parameters_witness :
  let ops := [ op_update; op_setStage "pustule"; op_update;
               op_advanceToNextStage; op_skipToNextStage ] in
  progressionAccelerator (sim (perform_all ops fresh)) =
  progressionAccelerator (sim fresh).
Proof.
  intro ops.
  apply (proj2 (operations_never_write_parameters ops fresh)).
  unfold ops. repeat (apply Forall_cons; [intro value; discriminate|]).
  apply Forall_nil.
Defined.

(** ** The medication level, tick after tick *)

Lemma updateDerivedRates_medication (s : AcneSimulation) :
  currentMedicationLevel (updateDerivedRates s) =
  currentMedicationLevel s * 0.99 + medicationValue s * 0.01.
Proof.
  unfold updateDerivedRates. cbv zeta. case_ifs; reflexivity.
Qed.

Lemma ticked_medication (s : AcneSimulation) :
  currentMedicationLevel (ticked s) =
  currentMedicationLevel s * 0.99 + medicationValue s * 0.01.
Proof.
  rewrite ticked_eq.
  rewrite (proj2 (proj2 (integrate_untouched _ _))).
  rewrite updateDerivedRates_medication. reflexivity.
Qed.

Lemma parameters_medicationValue (s s' : AcneSimulation) :
  parameters s' = parameters s -> medicationValue s' = medicationValue s.
Proof.
  unfold parameters. intro P. injection P as _ _ M _. exact M.
Qed.

Lemma update_medication (arguments : list Q) (w : World) :
  currentMedicationLevel (sim (after (update arguments w))) =
    currentMedicationLevel (sim w) * 0.99 + medicationValue (sim w) * 0.01 /\
  medicationValue (sim (after (update arguments w))) = medicationValue (sim w).
Proof.
  split.
  - destruct (written_over _ _ _ _ (update_sim arguments w)) as [_ L].
    destruct (levels_equal _ _ L) as (_ & _ & _ & _ & _ & M & _).
    rewrite M. apply ticked_medication.
  - destruct (update_settings arguments w) as [P _].
    exact (parameters_medicationValue _ _ P).
Qed.

Lemma after_ticks_medicationValue (n : nat) (w : World) :
  medicationValue (sim (after_ticks n w)) = medicationValue (sim w).
Proof.
  induction n as [|n IH]; [reflexivity|].
  rewrite after_ticks_succ, (proj2 (update_medication [] _)). exact IH.
Qed.

(** X6.  The medication level is a first-order filter of the medication
    slider: after [n] updates it lies at the slider value plus 0.99 to the
    power [n] times its initial distance from the slider, whatever else
    happens in those ticks. *)
Theorem medication_level_after_ticks (n : nat) (w : World) :
  currentMedicationLevel (sim (after_ticks n w)) ==
  medicationValue (sim w) +
  0.99 ^ Z.of_nat n * (currentMedicationLevel (sim w) - medicationValue (sim w)).
Proof.
  induction n as [|n IH].
  - cbn [Z.of_nat Qpower]. unfold after_ticks. rewrite iter_zero. ring.
  - rewrite after_ticks_succ, (proj1 (update_medication [] _)).
    rewrite after_ticks_medicationValue, IH.
    replace (Z.of_nat (S n)) with (1 + Z.of_nat n)%Z by lia.
    rewrite Qpower_plus by discriminate.
    change (0.99 ^ 1) with 0.99. ring.
Qed.

(** ** Sebum and healing progress only accumulate *)

Lemma grown_refl (s : AcneSimulation) : grown s s.
Proof. split; apply Qle_refl. Qed.

Lemma grown_trans (s1 s2 s3 : AcneSimulation) :
  grown s1 s2 -> grown s2 s3 -> grown s1 s3.
Proof.
  intros [A1 B1] [A2 B2]. split; eapply Qle_trans; eassumption.
Qed.

Lemma add_under_cap (x r : Q) :
  x <= 100 -> 0 <= r -> x <= Qmin 100 (x + r).
Proof. intros U R. apply Q.min_glb; lra. Qed.

Lemma add_under_cap_r (x r : Q) :
  x <= 100 -> 0 <= r -> x <= Qmin (x + r) 100.
Proof. intros U R. apply Q.min_glb; lra. Qed.

Lemma updateDerivedRates_grown (s : AcneSimulation) :
  grown s (updateDerivedRates s).
Proof.
  unfold updateDerivedRates. cbv zeta. case_ifs; split; apply Qle_refl.
Qed.

Section BlockGrowth.

Variable dt : Q.
Hypothesis dt_nonneg : 0 <= dt.

Lemma update_sebum_grown (s : AcneSimulation) :
  integrable s -> grown s (update_sebum dt s).
Proof.
  intro H. destruct s. open_integrable H.
  unfold grown, update_sebum. cbv zeta. fields.
  split; [|apply Qle_refl].
  apply add_under_cap; [qlinear|].
  repeat apply Qmult_le_0_compat; try assumption; qlinear.
Qed.

Lemma update_bacteria_grown (s : AcneSimulation) :
  grown s (update_bacteria dt s).
Proof.
  unfold update_bacteria. cbv zeta. case_ifs; split; apply Qle_refl.
Qed.

Lemma update_inflammation_grown (s : AcneSimulation) :
  grown s (update_inflammation dt s).
Proof.
  unfold update_inflammation. cbv zeta. case_ifs; split; apply Qle_refl.
Qed.

Lemma update_pus_grown (s : AcneSimulation) :
  grown s (update_pus dt s).
Proof.
  unfold update_pus. case_ifs; split; apply Qle_refl.
Qed.

Lemma update_healing_grown (s : AcneSimulation) :
  integrable s -> grown s (update_healing dt s).
Proof.
  intro H. destruct s. open_integrable H.
  unfold grown, update_healing. cbv zeta. fields.
  case_ifs; fields; (split; [apply Qle_refl|]); try apply Qle_refl;
    (apply add_under_cap_r; [qlinear|]);
    repeat apply Qmult_le_0_compat; try assumption; qlinear.
Qed.

Lemma integrate_grown (s : AcneSimulation) :
  integrable s -> grown s (integrate dt s).
Proof.
  intro H. unfold integrate.
  assert (H1 := update_sebum_integrable dt dt_nonneg _ H).
  assert (H2 := update_bacteria_integrable dt dt_nonneg _ H1).
  assert (H3 := update_inflammation_integrable dt dt_nonneg _ H2).
  assert (H4 := update_pus_integrable dt dt_nonneg _ H3).
  eapply grown_trans; [apply (update_sebum_grown _ H)|].
  eapply grown_trans; [apply update_bacteria_grown|].
  eapply grown_trans; [apply update_inflammation_grown|].
  eapply grown_trans; [apply update_pus_grown|].
  apply (update_healing_grown _ H4).
Qed.

End BlockGrowth.

Lemma ticked_grown (s : AcneSimulation) :
  parameters_in_range s ->
  levels_in_range s ->
  0 <= progressionAccelerator s ->
  grown s (ticked s).
Proof.
  intros P L A. rewrite ticked_eq.
  destruct (updateDerivedRates_integrable
              (set_simulationTime (simulationTime s + 1 / 60) s))
    as [I _].
  - apply set_simulationTime_ranges, P.
  - apply set_simulationTime_ranges, L.
  - exact A.
  - eapply grown_trans; [|apply (integrate_grown _ tick_nonneg _ I)].
    eapply grown_trans; [|apply updateDerivedRates_grown].
    split; apply Qle_refl.
Qed.

Lemma written_over_grown (s : AcneSimulation) (stage : string)
    (logged : option Z) :
  grown s (set_simulationStage stage (set_lastLogTime logged s)).
Proof. split; apply Qle_refl. Qed.

(** X7.  A tick never lowers the sebum level or healingProgress: from an
    engine whose parameters and levels are in range and whose accelerator is
    not negative, both are after update at least what they were.  Only the
    manual operations take them down. *)
Theorem tick_never_lowers_sebum_or_healingProgress
    (arguments : list Q) (w : World) :
  parameters_in_range (sim w) ->
  levels_in_range (sim w) ->
  0 <= progressionAccelerator (sim w) ->
  currentSebumLevel (sim w) <=
    currentSebumLevel (sim (after (update arguments w))) /\
  healingProgress (sim w) <= healingProgress (sim (after (update arguments w))).
Proof.
  intros P L A. rewrite update_sim.
  eapply grown_trans; [apply (ticked_grown _ P L A)|].
  apply written_over_grown.
Qed.

Lemma tick_never_lowers_sebum_or_healingProgress_witness :
  currentSebumLevel (sim ruptured) <=
    currentSebumLevel (sim (after (update [] ruptured))) /\
  healingProgress (sim ruptured) <=
    healingProgress (sim (after (update [] ruptured))).
Proof.
  assert (P : parameters_in_range (sim ruptured)) by closed_ranges.
  assert (L : levels_in_range (sim ruptured)) by closed_ranges.
  assert (A : 0 <= progressionAccelerator (sim ruptured)) by qle.
  exact (tick_never_lowers_sebum_or_healingProgress [] ruptured P L A).
Defined.

(** ** Ranges that every operation keeps *)

Ltac open_reachable H :=
  unfold reachable_ranges, parameters_in_range, levels_in_range in H;
  fields_in H;
  destruct H as ((? & ? & ? & ? & ? & ? & ? & ?) & ? &
                 (? & ? & ? & ? & ? & ?) & ? & ?).

Ltac thresholds :=
  unfold SEBUM_THRESHOLD, BACTERIA_THRESHOLD, INFLAMMATION_THRESHOLD,
    PUS_THRESHOLD, RUPTURE_THRESHOLD, HEALING_THRESHOLD, RESOLVED_THRESHOLD
    in *.

(** Closes the goals left by a write of constants. *)
Ltac close_reachable :=
  unfold reachable_ranges, parameters_in_range, levels_in_range; fields;
  repeat match goal with |- _ /\ _ => split end; try assumption;
  try (cbn [validStages In]; tauto);
  try (thresholds; unfold between in *; split; lra).

Lemma raised_bacteria_in_range (b : Q) :
  between 0 100 b -> between 0 100 (Qmax b (BACTERIA_THRESHOLD + 5)).
Proof.
  intros [L U]. thresholds. split.
  - apply Qle_trans with b; [exact L|apply Q.le_max_l].
  - apply Q.max_lub; lra.
Qed.

Lemma parameters_in_range_kept (s s' : AcneSimulation) :
  parameters s' = parameters s ->
  parameters_in_range s -> parameters_in_range s'.
Proof.
  unfold parameters, parameters_in_range. intros P H.
  injection P as -> -> -> -> -> -> -> -> _. exact H.
Qed.

Lemma advanceToNextStage_reachable (w : World) :
  reachable_ranges (sim w) -> reachable_ranges (sim (advanceToNextStage w)).
Proof.
  destruct w as [s c]. destruct s. intro H. open_reachable H.
  unfold advanceToNextStage. cbv zeta. fields.
  case_ifs; unfold log; close_reachable.
  apply raised_bacteria_in_range. assumption.
Qed.

Lemma skipToNextStage_reachable (w : World) :
  reachable_ranges (sim w) -> reachable_ranges (sim (skipToNextStage w)).
Proof.
  destruct w as [s c]. destruct s. intro H. open_reachable H.
  unfold skipToNextStage, on_sim. cbv zeta. fields.
  case_ifs; close_reachable.
Qed.

Lemma resetStageProgress_reachable (s : AcneSimulation) :
  reachable_ranges s -> reachable_ranges (resetStageProgress s).
Proof.
  destruct s. intro H. open_reachable H.
  unfold resetStageProgress. cbv zeta. fields.
  case_ifs; close_reachable.
Qed.

Lemma set_simulationStage_reachable (stage : string) (s : AcneSimulation) :
  In stage validStages ->
  reachable_ranges s -> reachable_ranges (set_simulationStage stage s).
Proof.
  destruct s. intros V H. open_reachable H.
  unfold reachable_ranges, parameters_in_range, levels_in_range. fields.
  repeat match goal with |- _ /\ _ => split end; assumption.
Qed.

Lemma setStage_reachable (stage : string) (w : World) :
  reachable_ranges (sim w) -> reachable_ranges (sim (setStage stage w)).
Proof.
  intro H. unfold setStage, updateProgressBar. cbv zeta.
  destruct (includes validStages stage) eqn:V; cbn [negb].
  - cbn [sim on_sim log]. apply resetStageProgress_reachable.
    apply set_simulationStage_reachable; [apply includes_In, V | exact H].
  - exact H.
Qed.

Lemma setProgressionAccelerator_reachable (value : Q) (w : World) :
  reachable_ranges (sim w) ->
  reachable_ranges (sim (setProgressionAccelerator value w)).
Proof.
  intros (P & A & L & M & V).
  split; [exact P|]. split; [apply setProgressionAccelerator_range|].
  split; [exact L|]. split; [exact M | exact V].
Qed.

(** The stage the level updates leave is the stage they found, or resolved. *)
Lemma ticked_stage_valid (s : AcneSimulation) :
  In (simulationStage s) validStages ->
  In (simulationStage (ticked s)) validStages.
Proof.
  intro V.
  destruct (string_dec (simulationStage s) "healing") as [H|H].
  - rewrite ticked_eq, integrate_eq.
    assert (E : simulationStage
                  (before_healing (1 / 60)
                     (updateDerivedRates
                        (set_simulationTime (simulationTime s + 1 / 60) s))) =
                "healing").
    { rewrite before_healing_stage.
      rewrite (proj1 (updateDerivedRates_keeps _)). exact H. }
    destruct (update_healing_in_healing (1 / 60) _ E) as (_ & _ & S1).
    rewrite S1. destruct (_ && _); cbn [validStages In]; tauto.
  - rewrite (ticked_stage s H). exact V.
Qed.

Lemma checkStageTransitions_stage_valid (w : World) :
  In (simulationStage (sim w)) validStages ->
  In (simulationStage (sim (after (checkStageTransitions w)))) validStages.
Proof.
  destruct w as [s c]. unfold after, checkStageTransitions, andThen, pure.
  cbv zeta. fields. intro V.
  case_ifs; rewrite ?transition_result; cbn [snd]; fields;
    try exact V; cbn [validStages In]; tauto.
Qed.

Lemma update_reachable (arguments : list Q) (w : World) :
  reachable_ranges (sim w) ->
  reachable_ranges (sim (after (update arguments w))).
Proof.
  intros (P & A & L & M & V).
  assert (A0 : 0 <= progressionAccelerator (sim w))
    by (destruct A as [A0 _]; lra).
  destruct (update_settings arguments w) as [P' A'].
  destruct (ticked_in_range (sim w) P L A0) as [L1 M1].
  assert (V' : In (simulationStage (sim (after (update arguments w))))
                  validStages).
  { rewrite update_after. apply checkStageTransitions_stage_valid.
    destruct (logged_over _ _ _ (updateParameters_sim w)) as (S1 & _).
    rewrite S1. apply ticked_stage_valid, V. }
  split; [exact (parameters_in_range_kept _ _ P' P)|].
  split; [rewrite A'; exact A|].
  rewrite update_sim.
  destruct (written_over_ranges (ticked (sim w))
              (simulationStage (sim (after (update arguments w))))
              (lastLogTime (sim (updateParameters w))) L1) as [L2 M2].
  split; [exact L2|].
  split.
  - rewrite M2, M1. apply medication_step_in_range; [exact M|].
    destruct P as (_ & _ & Pm & _). exact Pm.
  - rewrite <- update_sim. exact V'.
Qed.

Lemma perform_reachable (op : Operation) (w : World) :
  reachable_ranges (sim w) -> reachable_ranges (sim (perform op w)).
Proof.
  destruct op as [| | |stage|value]; cbn [perform].
  - apply update_reachable.
  - apply advanceToNextStage_reachable.
  - apply skipToNextStage_reachable.
  - apply setStage_reachable.
  - apply setProgressionAccelerator_reachable.
Qed.

(** X8.  The ranges are an invariant of the whole engine: from an engine
    whose parameters lie in [0,1000], accelerator in [0.1,10], five levels
    and healingProgress in [0,100], medication level in [0,1000] and whose
    stage is one of the eight, every sequence of updates (thrown or not),
    advanceToNextStage, skipToNextStage, setStage (any string) and
    setProgressionAccelerator (any finite number, not NaN) calls leaves an
    engine of which the same holds.  A freshly constructed engine is such
    an engine. *)
Theorem operations_keep_ranges (ops : list Operation) (w : World) :
  reachable_ranges (sim w) -> reachable_ranges (sim (perform_all ops w)).
Proof.
  revert w. induction ops as [|op ops IH]; intros w H; [exact H|].
  cbn [perform_all fold_left]. apply IH, perform_reachable, H.
Qed.

Lemma fresh_reachable : reachable_ranges (sim fresh).
Proof.
  split; [closed_ranges|]. split; [closed_ranges|]. split; [closed_ranges|].
  split; [closed_ranges|]. cbn. tauto.
Defined.

Lemma operations_keep_ranges_witness :
  reachable_ranges
    (sim (perform_all
            [ op_setStage "pustule"; op_update; op_setProgressionAccelerator 50;
              op_skipToNextStage; op_update; op_setStage "cyst";
              op_advanceToNextStage; op_update ] fresh)).
Proof. apply operations_keep_ranges, fresh_reachable. Defined.

(** ** One update of the stage *)

(** The stage a check leaves, and how the check ended. *)
Lemma checkStageTransitions_step (w : World) :
  let r := checkStageTransitions w in
  (fst r = Normal /\
   simulationStage (sim (after r)) = simulationStage (sim w)) \/
  (fst r <> Normal /\
   In (simulationStage (sim w), simulationStage (sim (after r))) stage_moves).
Proof.
  destruct w as [s c]. unfold after, checkStageTransitions, andThen, pure.
  cbv zeta. fields.
  repeat match goal with
         | |- context [if (simulationStage s =? ?x)%string then _ else _] =>
             let E := fresh "E" in
             destruct (simulationStage s =? x)%string eqn:E;
             [apply String.eqb_eq in E|clear E]
         end;
    try (left; split; reflexivity);
    repeat match goal with
           | |- context [if ?b then _ else _] =>
               let G := fresh "G" in destruct b eqn:G
           end;
    try (left; split; reflexivity);
    right; rewrite ?transition_result; cbn [fst snd]; fields;
    (split; [discriminate|]); rewrite E; cbn; tauto.
Qed.

Lemma updateParameters_stage_ticked (w : World) :
  simulationStage (sim (updateParameters w)) =
  simulationStage (ticked (sim w)).
Proof.
  destruct (logged_over _ _ _ (updateParameters_sim w)) as (S1 & _).
  exact S1.
Qed.

(** The level updates promote healing to resolved or keep the stage. *)
Lemma ticked_stage_cases (s : AcneSimulation) :
  simulationStage (ticked s) = simulationStage s \/
  (simulationStage s = "healing" /\ simulationStage (ticked s) = "resolved").
Proof.
  destruct (string_dec (simulationStage s) "healing") as [H|H].
  - rewrite ticked_eq, integrate_eq.
    assert (E : simulationStage
                  (before_healing (1 / 60)
                     (updateDerivedRates
                        (set_simulationTime (simulationTime s + 1 / 60) s))) =
                "healing").
    { rewrite before_healing_stage.
      rewrite (proj1 (updateDerivedRates_keeps _)). exact H. }
    destruct (update_healing_in_healing (1 / 60) _ E) as (_ & _ & S1).
    rewrite S1. destruct (_ && _).
    + right. split; [exact H|reflexivity].
    + left. symmetry. exact H.
  - left. apply ticked_stage, H.
Qed.

(** X9.  One update moves the stage by at most one move of the stage
    machine: the stage it leaves is the stage it found or a successor of it
    in the table of moves (the promotion of healing to resolved inside the
    level updates and the moves of the check never add up to two steps),
    so no update returns to an earlier stage or skips one. *)
Theorem update_moves_at_most_one_stage (arguments : list Q) (w : World) :
  let stage := simulationStage (sim w) in
  let stage' := simulationStage (sim (after (update arguments w))) in
  stage' = stage \/ In (stage, stage') stage_moves.
Proof.
  cbv zeta. rewrite update_after.
  destruct (ticked_stage_cases (sim w)) as [T|[H T]].
  - destruct (checkStageTransitions_step (updateParameters w))
      as [[_ S1]|[_ S1]];
      rewrite updateParameters_stage_ticked, T in S1.
    + left. exact S1.
    + right. exact S1.
  - right.
    destruct (checkStageTransitions_terminal (updateParameters w)) as [_ E].
    + right. rewrite updateParameters_stage_ticked. exact T.
    + rewrite E, updateParameters_stage_ticked, T, H. cbn. tauto.
Qed.

(** X10.  The one stage change that does not throw.  In healing, when the
    level updates of the tick bring inflammation below 10 and pus below 5,
    update returns normally and leaves the stage resolved: the promotion
    happens inside updateBiologicalState, and the check that follows finds
    resolved and only logs. *)
Theorem level_driven_resolution_completes (arguments : list Q) (w : World) :
  simulationStage (sim w) = "healing" ->
  currentInflammationLevel (ticked (sim w)) < 10 ->
  currentPusLevel (ticked (sim w)) < 5 ->
  fst (update arguments w) = Normal /\
  simulationStage (sim (after (update arguments w))) = "resolved".
Proof.
  intros H I P.
  assert (T : simulationStage (ticked (sim w)) = "resolved").
  { revert I P. rewrite ticked_eq, integrate_eq.
    assert (E : simulationStage
                  (before_healing (1 / 60)
                     (updateDerivedRates
                        (set_simulationTime
                           (simulationTime (sim w) + 1 / 60) (sim w)))) =
                "healing").
    { rewrite before_healing_stage.
      rewrite (proj1 (updateDerivedRates_keeps _)). exact H. }
    destruct (update_healing_in_healing (1 / 60) _ E) as (_ & _ & S1).
    intros I P. rewrite S1.
    apply Qltb_true in I. apply Qltb_true in P. rewrite I, P. reflexivity. }
  rewrite update_run.
  destruct (checkStageTransitions_terminal (updateParameters w)) as [N E].
  - right. rewrite updateParameters_stage_ticked. exact T.
  - split.
    + destruct (checkStageTransitions (updateParameters w)) as [r w'].
      cbn [fst] in N. subst r. reflexivity.
    + rewrite E, updateParameters_stage_ticked. exact T.
Qed.

Lemma level_driven_resolution_completes_witness :
  let w := setStage "healing" fresh in
  simulationStage (sim w) = "healing" /\
  fst (update [] w) = Normal /\
  simulationStage (sim (after (update [] w))) = "resolved".
Proof.
  intro w. split; [reflexivity|].
  apply (level_driven_resolution_completes [] w); vm_compute; reflexivity.
Defined.

(** ** The progress bar and the stage machine *)

Ltac guards :=
  repeat match goal with
         | H : _ && _ = true |- _ => apply andb_prop in H; destruct H
         | H : _ || _ = true |- _ => apply orb_prop in H; destruct H
         | H : _ && _ = false |- _ => apply andb_false_iff in H; destruct H
         | H : _ || _ = false |- _ => apply orb_false_iff in H; destruct H
         | H : Qgtb _ _ = true |- _ => apply Qgtb_true in H
         | H : Qgtb _ _ = false |- _ => apply Qgtb_false in H
         | H : Qgeb _ _ = true |- _ => apply Qgeb_true in H
         | H : Qgeb _ _ = false |- _ =>
             apply not_true_iff_false in H;
             rewrite Qgeb_true in H; apply Qnot_le_lt in H
         end.

(** A percentage of a threshold against 100, under [Qmax]. *)
Ltac percent :=
  thresholds;
  first [ qlinear
        | apply Q.max_le_iff; left; percent
        | apply Q.max_le_iff; right; percent ].

Ltac percent_in P :=
  thresholds;
  first [ qlinear
        | apply Q.max_lt_iff in P; destruct P as [P|P]; percent_in P ].

Lemma full_width (s : AcneSimulation) :
  100 <= stageProgress s -> progressBarWidth s == 100.
Proof.
  intro H. unfold progressBarWidth. apply Q.min_l.
  apply Q.max_le_iff. right. exact H.
Qed.

(** X11.  The progress bar against the stage machine.  Whenever the check
    fires a transition, the progress that updateProgressBar computes from
    the same engine is at least 100 and the bar is drawn full.  Conversely,
    in every stage but incubation and worsening a progress above 100 means
    that the check fires.  (In incubation the bar shows the larger of the
    bacteria and inflammation percentages while the check needs both.) *)
Theorem transitions_fire_on_a_full_progress_bar (w : World) :
  (fst (checkStageTransitions w) <> Normal ->
   100 <= stageProgress (sim w) /\ progressBarWidth (sim w) == 100) /\
  (simulationStage (sim w) <> "incubation" ->
   simulationStage (sim w) <> "worsening" ->
   100 < stageProgress (sim w) ->
   fst (checkStageTransitions w) <> Normal).
Proof.
  split.
  - intro N. assert (P : 100 <= stageProgress (sim w)).
    { revert N. destruct w as [s c].
      unfold checkStageTransitions, andThen, pure, stageProgress.
      cbv zeta. fields.
      repeat match goal with
             | |- context [if (simulationStage s =? ?x)%string then _ else _] =>
                 destruct (simulationStage s =? x)%string
             end;
        try (intro N; exfalso; apply N; reflexivity);
        repeat match goal with
               | |- context [if ?b then _ else _] =>
                   let G := fresh "G" in destruct b eqn:G
               end;
        try (intro N; exfalso; apply N; reflexivity);
        intros _; guards; percent. }
    split; [exact P | apply full_width, P].
  - destruct w as [s c].
    unfold checkStageTransitions, andThen, pure, stageProgress.
    cbv zeta. fields.
    repeat match goal with
           | |- context [if (simulationStage s =? ?x)%string then _ else _] =>
               let E := fresh "E" in
               destruct (simulationStage s =? x)%string eqn:E;
               [apply String.eqb_eq in E|clear E]
           end;
      try (intros I; exfalso; apply I; assumption);
      try (intros _ I; exfalso; apply I; assumption);
      repeat match goal with
             | |- context [if ?b then _ else _] =>
                 let G := fresh "G" in destruct b eqn:G
             end;
      rewrite ?transition_result; cbn [fst];
      try (intros _ _ _; discriminate);
      intros _ _ P; exfalso; guards; percent_in P.
Qed.

Lemma transitions_fire_on_a_full_progress_bar_witness :
  100 <= stageProgress (sim ruptured) /\
  progressBarWidth (sim ruptured) == 100 /\
  fst (checkStageTransitions ruptured) <> Normal.
Proof.
  destruct (transitions_fire_on_a_full_progress_bar ruptured) as [A B].
  destruct A as [A1 A2]; [vm_compute; discriminate|].
  split; [exact A1|]. split; [exact A2|].
  apply B; [vm_compute; discriminate | vm_compute; discriminate |].
  vm_compute. reflexivity.
Defined.

(** ** setStage against the stage machine *)

Lemma checkStageTransitions_in_rupture (w : World) :
  simulationStage (sim w) = "rupture" ->
  healingProgress (sim w) <= HEALING_THRESHOLD ->
  (fst (checkStageTransitions w) = Normal <->
   currentBacteriaLevel (sim w) <= BACTERIA_THRESHOLD /\
   currentInflammationLevel (sim w) <= BACTERIA_THRESHOLD).
Proof.
  destruct w as [s c]. unfold checkStageTransitions, andThen, pure.
  cbv zeta. fields. intros E H. rewrite E.
  cbn [String.eqb Ascii.eqb Bool.eqb].
  apply Qgtb_false in H. rewrite H.
  destruct (_ || _) eqn:G; rewrite ?transition_result; cbn [fst].
  - split; [intro N; discriminate N|].
    intros [B I]. apply Qgtb_false in B. apply Qgtb_false in I.
    rewrite B, I in G. discriminate G.
  - split; [|reflexivity]. intros _. guards. split; assumption.
Qed.

(** X12.  setStage never lands on a transition, except in rupture.  After
    setStage to incubation, comedone, papule, pustule, healing, worsening
    or resolved, whatever the engine held before, a check of the stage
    machine returns normally: the seeded levels lie short of the next
    guard.  After setStage to rupture the check returns normally exactly
    when the bacteria and inflammation levels that setStage left as they
    were are both at most 60; otherwise it moves on to worsening. *)
Theorem setStage_lands_short_of_the_next_move (stage : string) (w : World) :
  In stage validStages ->
  (stage <> "rupture" ->
   fst (checkStageTransitions (setStage stage w)) = Normal) /\
  (stage = "rupture" ->
   (fst (checkStageTransitions (setStage stage w)) = Normal <->
    currentBacteriaLevel (sim w) <= BACTERIA_THRESHOLD /\
    currentInflammationLevel (sim w) <= BACTERIA_THRESHOLD)).
Proof.
  intro V. split.
  - intro N. destruct w as [s c]. destruct s.
    cbn [validStages In] in V.
    repeat (destruct V as [V|V]; [subst stage|]); try contradiction;
      try (exfalso; apply N; reflexivity);
      vm_compute; reflexivity.
  - intro E. subst stage.
    assert (S1 : sim (setStage "rupture" w) =
                 resetStageProgress (set_simulationStage "rupture" (sim w)))
      by (rewrite (setStage_valid "rupture" w V); reflexivity).
    assert (B : currentBacteriaLevel (sim (setStage "rupture" w)) =
                currentBacteriaLevel (sim w))
      by (rewrite S1; destruct (sim w); reflexivity).
    assert (I : currentInflammationLevel (sim (setStage "rupture" w)) =
                currentInflammationLevel (sim w))
      by (rewrite S1; destruct (sim w); reflexivity).
    rewrite <- B, <- I. apply checkStageTransitions_in_rupture.
    + rewrite S1. destruct (sim w). reflexivity.
    + rewrite S1. destruct (sim w). vm_compute. discriminate.
Qed.

Lemma pustule_is_a_stage : In "pustule" validStages.
Proof. cbn. tauto. Defined.

Lemma rupture_is_a_stage : In "rupture" validStages.
Proof. cbn. tauto. Defined.

Lemma setStage_lands_short_of_the_next_move_witness :
  fst (checkStageTransitions (setStage "pustule" ruptured)) = Normal /\
  fst (checkStageTransitions (setStage "rupture" ruptured)) <> Normal.
Proof.
  split.
  - destruct (setStage_lands_short_of_the_next_move "pustule" ruptured
                pustule_is_a_stage) as [A _].
    apply A. discriminate.
  - destruct (setStage_lands_short_of_the_next_move "rupture" ruptured
                rupture_is_a_stage) as [_ B].
    intro N. apply (B eq_refl) in N. destruct N as [N _].
    revert N. vm_compute. intro N. apply N. reflexivity.
Defined.

(** X13.  setStage is idempotent on the engine: a second call with the same
    argument, valid or not, leaves the engine object that the first call
    left (the console grows). *)
Theorem setStage_twice (stage : string) (w : World) :
  sim (setStage stage (setStage stage w)) = sim (setStage stage w).
Proof.
  destruct (in_dec string_dec stage validStages) as [V|V].
  - rewrite (setStage_valid stage (setStage stage w) V).
    rewrite (setStage_valid stage w V). cbn [sim].
    destruct (sim w). cbn [validStages In] in V.
    repeat (destruct V as [V|V]; [subst stage; reflexivity|]).
    contradiction.
  - rewrite (setStage_invalid stage (setStage stage w) V). reflexivity.
Qed.

(** ** skipToNextStage *)

(** X14.  skipToNextStage of the class follows the healing path of the
    stage machine: from incubation, comedone, papule, pustule, rupture and
    healing it moves one move along the table, never to worsening.  From
    comedone on it seeds the levels a tenth above the thresholds, so the
    guard under which the stage machine itself enters the new stage holds
    on arrival; only the first skip, from incubation, arrives in comedone
    with bacteria 15 and inflammation 5, short of that guard. *)
Theorem skipToNextStage_meets_entry_conditions (w : World) :
  In (simulationStage (sim w))
     ["incubation"; "comedone"; "papule"; "pustule"; "rupture"; "healing"] ->
  let stage := simulationStage (sim w) in
  let w' := skipToNextStage w in
  let stage' := simulationStage (sim w') in
  In (stage, stage') stage_moves /\
  stage' <> "worsening" /\
  (entry_condition stage' (sim w') = true <-> stage <> "incubation").
Proof.
  destruct w as [s c]. destruct s. unfold skipToNextStage. cbv zeta. fields.
  intro V. cbn [In] in V.
  repeat (destruct V as [V|V]; [subst|]); try contradiction;
    (split; [cbn; tauto|]); (split; [discriminate|]);
    (split;
     [ intro C; first [discriminate | exfalso; revert C; vm_compute; discriminate]
     | intro N; first [vm_compute; reflexivity | exfalso; apply N; reflexivity] ]).
Qed.

Lemma skipToNextStage_meets_entry_conditions_witness :
  simulationStage (sim (skipToNextStage ruptured)) = "healing" /\
  entry_condition "healing" (sim (skipToNextStage ruptured)) = true.
Proof.
  destruct (skipToNextStage_meets_entry_conditions ruptured)
    as (M & _ & C); [cbn; tauto|].
  split; [reflexivity|]. apply C. discriminate.
Defined.

(** ** The clock *)

Lemma update_time (arguments : list Q) (w : World) :
  simulationTime (sim (after (update arguments w))) =
  simulationTime (sim w) + 1 / 60.
Proof.
  rewrite update_sim.
  destruct (written_over (ticked (sim w)) _
              (simulationStage (sim (after (update arguments w))))
              (lastLogTime (sim (updateParameters w))) eq_refl) as (T & _).
  rewrite T. apply ticked_time.
Qed.

Lemma after_ticks_time (n : nat) (w : World) :
  simulationTime (sim (after_ticks n w)) ==
  simulationTime (sim w) + inject_Z (Z.of_nat n) / 60.
Proof.
  induction n as [|n IH].
  - unfold after_ticks. rewrite iter_zero. cbn [Z.of_nat inject_Z].
    unfold Qdiv. ring.
  - rewrite after_ticks_succ, update_time, IH.
    rewrite Nat2Z.inj_succ. unfold Z.succ. rewrite inject_Z_plus.
    unfold Qdiv. ring.
Qed.

(** X15.  The hours on the page lag the clock.  The engine counts
    simulated hours, 1/60 per update, and the page shows
    floor(simulationTime / 3600) as the hours.  On an engine started at time
    0, after n updates with 120 <= n < 216000 at least one simulated hour
    has passed and the displayed hours are still 0.  (Both bounds leave a
    margin of a tick or more, so the rounding of the summed clock does not
    touch them.) *)
Theorem displayed_hours_stay_zero (n : nat) (w : World) :
  simulationTime (sim w) == 0 ->
  (Z.of_nat n < 216000)%Z ->
  timeInHours (sim (after_ticks n w)) = 0%Z /\
  ((120 <= Z.of_nat n)%Z -> 1 <= simulationTime (sim (after_ticks n w))).
Proof.
  intros T0 N. split.
  - unfold timeInHours.
    assert (E : simulationTime (sim (after_ticks n w)) / 3600 ==
                Z.of_nat n # 216000).
    { rewrite after_ticks_time, T0. unfold Qdiv.
      rewrite (Qmake_Qdiv (Z.of_nat n) 216000). unfold Qdiv.
      setoid_replace (/ inject_Z (Z.pos 216000)) with (/ 60 * / 3600)
        by reflexivity.
      ring. }
    rewrite E. cbn [Qfloor]. apply Z.div_small. lia.
  - intro M. rewrite after_ticks_time, T0.
    assert (I : inject_Z 120 <= inject_Z (Z.of_nat n))
      by (rewrite <- Zle_Qle; exact M).
    revert I. generalize (inject_Z (Z.of_nat n)). intros q I.
    assert (C : inject_Z 120 == 120) by reflexivity.
    rewrite C in I. qlinear.
Qed.

Lemma displayed_hours_stay_zero_witness :
  timeInHours (sim (after_ticks 120 fresh)) = 0%Z /\
  1 <= simulationTime (sim (after_ticks 120 fresh)).
Proof.
  destruct (displayed_hours_stay_zero 120 fresh) as [A B];
    [reflexivity | reflexivity |].
  split; [exact A|]. apply B. discriminate.
Defined.

(** ** The derived rates *)

Lemma product_between (x y : Q) :
  between 0.5 1.5 x -> between 0.5 1 y -> between 0.25 1.5 (x * y).
Proof.
  intros [Lx Ux] [Ly Uy]. split.
  - apply Qle_trans with (0.5 * y).
    + lra.
    + apply Qmult_le_compat_r; lra.
  - apply Qle_trans with (1.5 * y).
    + apply Qmult_le_compat_r; lra.
    + lra.
Qed.

(** X16.  The bounds that the comments of updateDerivedRates state.  With
    the parameters in [0,1000], updateDerivedRates leaves
    baselineInflammation in [0,0.5] (0.5 at friction 1000) and
    humidityEffect in [1,1.5] (1.5 at humidity 1000); with an accelerator
    that is not negative, sebumRate and bacteriaGrowthRate are not
    negative. *)
Theorem derived_rates_in_range (s : AcneSimulation) :
  parameters_in_range s ->
  0 <= progressionAccelerator s ->
  let s' := updateDerivedRates s in
  (exists b, baselineInflammation s' = Some b /\ between 0 0.5 b) /\
  (exists h, humidityEffect s' = Some h /\ between 1 1.5 h) /\
  0 <= sebumRate s' /\
  0 <= bacteriaGrowthRate s'.
Proof.
  unfold parameters_in_range.
  intros (Hs & Hb & Hm & Hi & Hh & Ht & Hu & Hf) A.
  unfold updateDerivedRates. cbv zeta. fields.
  assert (P := product_between
                 (1 + 0.001 * (temperatureValue s - 500))
                 (1 - medicationValue s / 2000)).
  destruct P as [P1 P2]; [qlinear|qlinear|].
  destruct (Qgtb (frictionValue s) 300) eqn:F; fields;
    destruct (Qgtb (humidityValue s) 600) eqn:G; fields; guards;
    (split; [eexists; split; [reflexivity|qlinear]|]);
    (split; [eexists; split; [reflexivity|qlinear]|]);
    (split; [apply Qmult_le_0_compat; [qlinear|exact A]|]);
    (apply Qmult_le_0_compat; [qlinear|exact A]).
Qed.

Lemma derived_rates_in_range_witness :
  exists b,
    baselineInflammation
      (updateDerivedRates (set_frictionValue 1000 new_AcneSimulation)) =
    Some b /\ between 0 0.5 b.
Proof.
  destruct (derived_rates_in_range (set_frictionValue 1000 new_AcneSimulation))
    as (B & _); [closed_ranges | qle | exact B].
Defined.

(** ** The periodic log *)

(** X17.  The periodic log line is not repeated: once the state has been
    logged for a ten-hour slot, a second pass over the same engine changes
    nothing, and one pass adds at most one line to the console. *)
Theorem periodic_log_is_not_repeated (w : World) :
  log_state_periodically (log_state_periodically w) =
    log_state_periodically w /\
  (length (console (log_state_periodically w)) <= S (length (console w)))%nat.
Proof.
  assert (K : forall w0 : World,
             (Z.rem (Qfloor (simulationTime (sim w0))) 10 =? 0)%Z
             && strict_neq_opt (Qfloor (simulationTime (sim w0) / 10))
                  (lastLogTime (sim w0)) = false ->
             log_state_periodically w0 = w0).
  { intros w0 G. unfold log_state_periodically. cbv zeta. rewrite G.
    reflexivity. }
  remember (log_state_periodically w) as w1 eqn:E1.
  unfold log_state_periodically in E1. cbv zeta in E1.
  destruct (_ && _) eqn:G in E1; subst w1.
  - split.
    + apply K. fields. unfold strict_neq_opt. rewrite Z.eqb_refl.
      apply andb_false_r.
    + cbn [console]. rewrite length_app. cbn [length]. lia.
  - split; [apply K, G|lia].
Qed.

(** ** The Skip Stage button *)

(** X18.  The Skip Stage button of the driver, unlike its Reset button and
    its sliders, calls a method the class declares: the call completes, and
    the engine it leaves is the one advanceToNextStage leaves (the class's
    own skipToNextStage is not what the button runs).  In worsening the
    button changes nothing in the engine. *)
Theorem skip_button_advances (w : World) :
  fst (Main.skipToNextStage w) = Normal /\
  sim (after (Main.skipToNextStage w)) = sim (advanceToNextStage w) /\
  (simulationStage (sim w) = "worsening" ->
   sim (after (Main.skipToNextStage w)) = sim w).
Proof.
  assert (E : sim (after (Main.skipToNextStage w)) =
              sim (advanceToNextStage w)) by reflexivity.
  split; [reflexivity|]. split; [exact E|].
  intro H. rewrite E. unfold advanceToNextStage. cbv zeta. rewrite H.
  reflexivity.
Qed.

Lemma skip_button_advances_witness :
  let w := setStage "worsening" fresh in
  fst (Main.skipToNextStage w) = Normal /\
  sim (after (Main.skipToNextStage w)) = sim w.
Proof.
  intro w. destruct (skip_button_advances w) as (N & _ & S1).
  split; [exact N|]. apply S1. reflexivity.
Defined.
